(** * wl-x11-clipsync: the synchronisation engine of [clipsync.py]

    A shallow embedding of [clipsync.py] and the properties of its MIME
    selector, its text normaliser and its change-detection rules.

    Layout:
    - [Py]        the Python built-ins the script relies on ([bytes.decode],
                  [str.encode], [str.strip], [str.splitlines], ...);
    - [Clipsync]  the script itself: the pure helpers, the subprocess
                  boundary as a state-and-exception monad over a [World],
                  the body of the [while True] loop, and the rules and the
                  selector priority as relations;
    - [Scenario]  concrete worlds and states;
    - [PyFacts], [NormFacts], [RunFacts]
                  facts about the built-ins, the normaliser and the monad;
    - [SelectorFacts], [KeyFacts], [EngineFacts]
                  the properties of the selector, of the comparison key and
                  of the engine;
    - [Notions], [NormMore], [AdapterMore], [EngineMore]
                  further properties of the normaliser, of the reads and
                  writes, of one pass, of the loop and of the start-up.

    Not modelled: the text of the messages printed (only which message is
    printed, and when), and the time a helper process takes (a time-out is
    a process call that raises). *)

From Stdlib Require Import String Ascii Strings.Byte.
From Stdlib Require Import ZArith List Bool Lia.
Import ListNotations.

Local Open Scope Z_scope.

(* ------------------------------------------------------------------ *)
(** * Python values *)

(** A [bytes] object is a sequence of octets, a [str] a sequence of code
    points. *)
Definition bytes := list byte.
Definition str := list Z.

Module Py.

Definition ord (b : byte) : Z := Z.of_N (Byte.to_N b).

Definition chr8 (z : Z) : byte :=
  match Byte.of_N (Z.to_N z) with
  | Some b => b
  | None => Byte.x00
  end.

(** An ASCII literal of the script, as a [str] and as a [bytes]. *)
Definition lit (s : string) : str :=
  List.map (fun a => Z.of_N (N_of_ascii a)) (list_ascii_of_string s).

Definition blit (s : string) : bytes := list_byte_of_string s.

Fixpoint str_eqb (a b : str) : bool :=
  match a, b with
  | [], [] => true
  | x :: a', y :: b' => (x =? y) && str_eqb a' b'
  | _, _ => false
  end.

Fixpoint bytes_eqb (a b : bytes) : bool :=
  match a, b with
  | [], [] => true
  | x :: a', y :: b' => Byte.eqb x y && bytes_eqb a' b'
  | _, _ => false
  end.

(** [x in xs] for a list of [str]. *)
Fixpoint contains (x : str) (xs : list str) : bool :=
  match xs with
  | [] => false
  | y :: ys => str_eqb y x || contains x ys
  end.

(** [s.startswith(p)] *)
Fixpoint startswith (s p : str) : bool :=
  match p, s with
  | [], _ => true
  | c :: p', d :: s' => (d =? c) && startswith s' p'
  | _ :: _, [] => false
  end.

(** [list(dict.fromkeys(xs))]: the first occurrence of every key, in
    order of first appearance. *)
Fixpoint fromkeys_acc (seen : list str) (xs : list str) : list str :=
  match xs with
  | [] => []
  | x :: xs' =>
      if contains x seen then fromkeys_acc seen xs'
      else x :: fromkeys_acc (x :: seen) xs'
  end.

Definition fromkeys (xs : list str) : list str := fromkeys_acc [] xs.

(** ** UTF-8 *)

Definition REPLACEMENT : Z := 0xFFFD.

Definition is_continuation (b : Z) : bool := (0x80 <=? b) && (b <? 0xC0).

(** [data.decode('utf-8', errors='replace')].  An ill-formed sequence is
    replaced by one U+FFFD for its maximal well-formed prefix and decoding
    resumes right after that prefix; a sequence cut short by the end of the
    data gives one U+FFFD. *)
Fixpoint decode (bs : bytes) : str :=
  match bs with
  | [] => []
  | c1 :: t1 =>
      let ch := ord c1 in
      if ch <? 0x80 then ch :: decode t1
      else if ch <? 0xC2 then REPLACEMENT :: decode t1
      else if ch <? 0xE0 then
        match t1 with
        | [] => [REPLACEMENT]
        | c2 :: t2 =>
            let ch2 := ord c2 in
            if negb (is_continuation ch2) then REPLACEMENT :: decode t1
            else (Z.shiftl ch 6 + ch2 - (Z.shiftl 0xC0 6 + 0x80)) :: decode t2
        end
      else if ch <? 0xF0 then
        match t1 with
        | [] => [REPLACEMENT]
        | c2 :: t2 =>
            let ch2 := ord c2 in
            if negb (is_continuation ch2)
               || (if ch2 <? 0xA0 then ch =? 0xE0 else ch =? 0xED)
            then REPLACEMENT :: decode t1
            else
              match t2 with
              | [] => [REPLACEMENT]
              | c3 :: t3 =>
                  let ch3 := ord c3 in
                  if negb (is_continuation ch3) then REPLACEMENT :: decode t2
                  else (Z.shiftl ch 12 + Z.shiftl ch2 6 + ch3
                        - (Z.shiftl 0xE0 12 + Z.shiftl 0x80 6 + 0x80))
                         :: decode t3
              end
        end
      else if ch <? 0xF5 then
        match t1 with
        | [] => [REPLACEMENT]
        | c2 :: t2 =>
            let ch2 := ord c2 in
            if negb (is_continuation ch2)
               || (if ch2 <? 0x90 then ch =? 0xF0 else ch =? 0xF4)
            then REPLACEMENT :: decode t1
            else
              match t2 with
              | [] => [REPLACEMENT]
              | c3 :: t3 =>
                  let ch3 := ord c3 in
                  if negb (is_continuation ch3) then REPLACEMENT :: decode t2
                  else
                    match t3 with
                    | [] => [REPLACEMENT]
                    | c4 :: t4 =>
                        let ch4 := ord c4 in
                        if negb (is_continuation ch4)
                        then REPLACEMENT :: decode t3
                        else (Z.shiftl ch 18 + Z.shiftl ch2 12
                              + Z.shiftl ch3 6 + ch4
                              - (Z.shiftl 0xF0 18 + Z.shiftl 0x80 12
                                 + Z.shiftl 0x80 6 + 0x80))
                               :: decode t4
                    end
              end
        end
      else REPLACEMENT :: decode t1
  end.

Definition is_surrogate (ch : Z) : bool := (0xD800 <=? ch) && (ch <=? 0xDFFF).

(** One code point of [s.encode('utf-8', errors='replace')]: a lone
    surrogate cannot be encoded and becomes [b'?']. *)
Definition encode_char (ch : Z) : bytes :=
  if ch <? 0x80 then [chr8 ch]
  else if ch <? 0x800 then
    [chr8 (Z.lor 0xC0 (Z.shiftr ch 6)); chr8 (Z.lor 0x80 (Z.land ch 0x3F))]
  else if is_surrogate ch then [chr8 0x3F]
  else if ch <? 0x10000 then
    [chr8 (Z.lor 0xE0 (Z.shiftr ch 12));
     chr8 (Z.lor 0x80 (Z.land (Z.shiftr ch 6) 0x3F));
     chr8 (Z.lor 0x80 (Z.land ch 0x3F))]
  else
    [chr8 (Z.lor 0xF0 (Z.shiftr ch 18));
     chr8 (Z.lor 0x80 (Z.land (Z.shiftr ch 12) 0x3F));
     chr8 (Z.lor 0x80 (Z.land (Z.shiftr ch 6) 0x3F));
     chr8 (Z.lor 0x80 (Z.land ch 0x3F))].

Fixpoint encode (s : str) : bytes :=
  match s with
  | [] => []
  | ch :: s' => encode_char ch ++ encode s'
  end.

(** ** Stripping *)

Fixpoint mem (c : Z) (chars : str) : bool :=
  match chars with
  | [] => false
  | d :: chars' => (c =? d) || mem c chars'
  end.

(** [s.lstrip(chars)] *)
Fixpoint lstrip (chars : str) (s : str) : str :=
  match s with
  | [] => []
  | c :: s' => if mem c chars then lstrip chars s' else s
  end.

(** [s.rstrip(chars)] *)
Fixpoint rstrip (chars : str) (s : str) : str :=
  match s with
  | [] => []
  | c :: s' =>
      match rstrip chars s' with
      | [] => if mem c chars then [] else [c]
      | r => c :: r
      end
  end.

(** [s.strip(chars)] *)
Definition strip (chars : str) (s : str) : str := lstrip chars (rstrip chars s).

(** ** Lines *)

(** The line boundaries of [str.splitlines]. *)
Definition is_linebreak (c : Z) : bool :=
  mem c [0x0A; 0x0D; 0x0B; 0x0C; 0x1C; 0x1D; 0x1E; 0x85; 0x2028; 0x2029].

(** [s.splitlines()], with [cur] the line read so far (reversed).  CR LF
    is one boundary; a last line without a boundary is kept when it is not
    empty. *)
Fixpoint splitlines_acc (cur : str) (s : str) : list str :=
  match s with
  | [] => match cur with [] => [] | _ => [rev cur] end
  | c :: s' =>
      if is_linebreak c then
        rev cur ::
          (if c =? 0x0D then
             match s' with
             | d :: s'' => if d =? 0x0A then splitlines_acc [] s''
                           else splitlines_acc [] s'
             | [] => splitlines_acc [] s'
             end
           else splitlines_acc [] s')
      else splitlines_acc (c :: cur) s'
  end.

Definition splitlines (s : str) : list str := splitlines_acc [] s.

(** ** Notions used to state the properties below *)

(** A code point that [str.encode] writes as itself: in range and not a
    surrogate. *)
Definition is_scalar (ch : Z) : bool :=
  (0 <=? ch) && (ch <? 0x110000) && negb (is_surrogate ch).

(** [s] has nothing left for [rstrip chars] to remove. *)
Definition rstripped (chars s : str) : Prop :=
  forall s' c, s = s' ++ [c] -> mem c chars = false.

(** [bs.endswith(b'\x00')] *)
Fixpoint ends_with_nul (bs : bytes) : bool :=
  match bs with
  | [] => false
  | b :: t =>
      match t with
      | [] => Byte.eqb b Byte.x00
      | _ :: _ => ends_with_nul t
      end
  end.

End Py.

(* ------------------------------------------------------------------ *)
(** * The script *)

Module Clipsync.

Import Py.

(** ** The outside world

    Every external effect of the script is a helper process started with
    [subprocess], the HTML parser, or a line on standard output.  The world
    answers the [n]-th process call through [oracle], so the clipboards may
    change between any two reads; it records what was run and printed. *)

Inductive Cmd : Type :=
| Which (tool : str)                      (* which <tool> *)
| Clipnotify                              (* clipnotify *)
| WlPasteList                             (* wl-paste -l *)
| WlPaste (mime : str)                    (* wl-paste -t <mime> *)
| WlCopy (mime : str) (input : bytes)     (* wl-copy -t <mime>  < input *)
| XclipTargets                            (* xclip -selection clipboard -o -t TARGETS *)
| XclipOut (mime : str)                   (* xclip -selection clipboard -o -t <mime> *)
| XclipIn (mime : str) (input : bytes).   (* xclip -selection clipboard -t <mime>  < input *)

(** What a process call does: it exits with a return code and its captured
    output, or the call itself raises (time-out, missing program). *)
Inductive Outcome : Type :=
| Exited (returncode : Z) (stdout : bytes)
| Failed.

Inductive Message : Type :=
| MsgToolMissing (tool : str)
| MsgStarting
| MsgStrippedWayland
| MsgStripErrorWayland
| MsgStrippedX11
| MsgStripErrorX11
| MsgWaylandToX11 (mime : str)
| MsgX11ToWayland (mime : str)
| MsgConflict (mime : str)
| MsgTraceback.

Inductive Event : Type :=
| Ran (c : Cmd)
| Printed (m : Message).

Record World : Type := mkWorld {
  oracle : nat -> Cmd -> Outcome;      (* answer to the n-th process call *)
  html_parser : str -> option str;     (* BeautifulSoup(...).get_text(); None: it raised *)
  clock : nat;                         (* process calls made so far *)
  trace : list Event                   (* what happened, oldest first *)
}.

(** ** State and exceptions *)

Inductive Res (A : Type) : Type :=
| Ok (a : A)
| Raised.
Arguments Ok {A} a.
Arguments Raised {A}.

Definition M (A : Type) : Type := World -> Res A * World.

Definition ret {A} (a : A) : M A := fun wd => (Ok a, wd).

Definition bind {A B} (m : M A) (k : A -> M B) : M B :=
  fun wd =>
    match m wd with
    | (Ok a, wd') => k a wd'
    | (Raised, wd') => (Raised, wd')
    end.

(** [try: body except: handler] *)
Definition try_except {A} (body handler : M A) : M A :=
  fun wd =>
    match body wd with
    | (Ok a, wd') => (Ok a, wd')
    | (Raised, wd') => handler wd'
    end.

Notation "x <- m ;; k" := (bind m (fun x => k))
  (at level 61, m at next level, right associativity).
Notation "m ;;; k" := (bind m (fun _ => k))
  (at level 61, right associativity).

Definition emit (e : Event) : M unit :=
  fun wd => (Ok tt, mkWorld (oracle wd) (html_parser wd) (clock wd) (trace wd ++ [e])).

Definition print (m : Message) : M unit := emit (Printed m).

(** [subprocess.run(cmd, capture_output=True, ..., check=check)] *)
Definition subprocess_run (c : Cmd) (check : bool) : M (Z * bytes) :=
  fun wd =>
    let wd' := mkWorld (oracle wd) (html_parser wd) (S (clock wd))
                       (trace wd ++ [Ran c]) in
    match oracle wd (clock wd) c with
    | Exited rc out =>
        if check && negb (rc =? 0) then (Raised, wd') else (Ok (rc, out), wd')
    | Failed => (Raised, wd')
    end.

(** [BeautifulSoup(s, 'html.parser').get_text()] *)
Definition soup_get_text (s : str) : M str :=
  fun wd =>
    match html_parser wd s with
    | Some t => (Ok t, wd)
    | None => (Raised, wd)
    end.

(** ** Utility functions *)

(** [command_exists], lines 10-12. *)
Definition command_exists (cmd : str) : M bool :=
  r <- subprocess_run (Which cmd) false ;;
  ret (fst r =? 0).

(** [decode_utf8], lines 14-16. *)
Definition decode_utf8 (data : bytes) : str :=
  rstrip [0] (decode data).

(** [normalize_text], lines 18-26. *)
Definition normalize_text (data : bytes) : bytes :=
  let s := decode_utf8 data in
  let s := strip [0x0D; 0x0A] s in
  encode s.

(** [is_text_mime], lines 28-34. *)
Definition is_text_mime (mime : str) : bool :=
  if startswith mime (lit "text/") then true
  else if contains mime [lit "UTF8_STRING"; lit "STRING"] then true
  else false.

(** ** Wayland clipboard *)

(** [list_wayland_targets], lines 40-47. *)
Definition list_wayland_targets : M (list str) :=
  try_except
    (out <- subprocess_run WlPasteList true ;;
     ret (splitlines (decode_utf8 (snd out))))
    (ret []).

(** The first entry of a [for t in targets: if t.startswith('image/')]
    loop, if the loop returns. *)
Fixpoint first_image (targets : list str) : option str :=
  match targets with
  | [] => None
  | t :: targets' =>
      if startswith t (lit "image/") then Some t else first_image targets'
  end.

(** [pick_wayland_mime], lines 49-81: the choice among the targets listed
    (lines 60-81), then the function itself. *)
Definition pick_wayland_mime_of (targets : list str) : str :=
  let targets := fromkeys targets in
  if contains (lit "text/uri-list") targets then lit "text/uri-list"
  else if contains (lit "text/html") targets then lit "text/html"
  else match first_image targets with
       | Some t => t
       | None =>
           if contains (lit "text/plain;charset=utf-8") targets
           then lit "text/plain;charset=utf-8"
           else if contains (lit "text/plain") targets then lit "text/plain"
           else if contains (lit "UTF8_STRING") targets then lit "UTF8_STRING"
           else lit "text/plain;charset=utf-8"
       end.

Definition pick_wayland_mime : M str :=
  targets <- list_wayland_targets ;;
  ret (pick_wayland_mime_of targets).

(** [get_wayland_clipboard], lines 83-93. *)
Definition get_wayland_clipboard : M (bytes * str) :=
  mime <- pick_wayland_mime ;;
  try_except
    (out <- subprocess_run (WlPaste mime) false ;;
     ret (snd out, mime))
    (print MsgTraceback ;;; ret ([], [])).

(** [set_wayland_clipboard], lines 95-108. *)
Definition set_wayland_clipboard (data : bytes) (mime : str) : M unit :=
  try_except
    (let chosen_mime :=
       if is_text_mime mime then lit "text/plain;charset=utf-8" else mime in
     subprocess_run (WlCopy chosen_mime data) true ;;; ret tt)
    (print MsgTraceback).

(** ** X11 clipboard *)

(** [list_x11_targets], lines 114-123. *)
Definition list_x11_targets : M (list str) :=
  try_except
    (out <- subprocess_run XclipTargets true ;;
     let decoded := decode_utf8 (snd out) in
     ret (splitlines decoded))
    (ret []).

(** [pick_x11_mime], lines 125-150: the choice among the targets listed
    (lines 137-150), then the function itself. *)
Definition pick_x11_mime_of (targets : list str) : str :=
  if contains (lit "text/uri-list") targets then lit "text/uri-list"
  else if contains (lit "text/html") targets then lit "text/html"
  else match first_image targets with
       | Some t => t
       | None =>
           if contains (lit "text/plain;charset=utf-8") targets
           then lit "text/plain;charset=utf-8"
           else if contains (lit "text/plain") targets then lit "text/plain"
           else if contains (lit "UTF8_STRING") targets then lit "UTF8_STRING"
           else lit "text/plain;charset=utf-8"
       end.

Definition pick_x11_mime : M str :=
  targets <- list_x11_targets ;;
  ret (pick_x11_mime_of targets).

(** [get_x11_clipboard], lines 152-163. *)
Definition get_x11_clipboard : M (bytes * str) :=
  mime <- pick_x11_mime ;;
  try_except
    (out <- subprocess_run (XclipOut mime) false ;;
     ret (snd out, mime))
    (print MsgTraceback ;;; ret ([], [])).

(** [set_x11_clipboard], lines 165-179. *)
Definition set_x11_clipboard (data : bytes) (mime : str) : M unit :=
  try_except
    (subprocess_run (XclipIn mime data) true ;;; ret tt)
    (print MsgTraceback).

(** ** Main loop *)

(** The last known data and MIME of both sides. *)
Record EngineState : Type := mkState {
  last_w_data : bytes;
  last_w_mime : str;
  last_x_data : bytes;
  last_x_mime : str
}.

Definition initial_state : EngineState := mkState [] [] [] [].

Definition bytes_neb (a b : bytes) : bool := negb (bytes_eqb a b).

(** The HTML stripping of the Wayland snapshot, lines 210-221. *)
Definition strip_html_wayland (w : bytes * str) : M (bytes * str) :=
  let '(w_data, w_mime) := w in
  if str_eqb w_mime (lit "text/html") then
    try_except
      (cleaned_text <- soup_get_text (decode_utf8 w_data) ;;
       let w_data := encode cleaned_text in
       let w_mime := lit "text/plain;charset=utf-8" in
       print MsgStrippedWayland ;;;
       ret (w_data, w_mime))
      (print MsgStripErrorWayland ;;;
       get_wayland_clipboard)
  else ret (w_data, w_mime).

(** The HTML stripping of the X11 snapshot, lines 223-233. *)
Definition strip_html_x11 (x : bytes * str) : M (bytes * str) :=
  let '(x_data, x_mime) := x in
  if str_eqb x_mime (lit "text/html") then
    try_except
      (cleaned_text <- soup_get_text (decode_utf8 x_data) ;;
       let x_data := encode cleaned_text in
       let x_mime := lit "text/plain;charset=utf-8" in
       print MsgStrippedX11 ;;;
       ret (x_data, x_mime))
      (print MsgStripErrorX11 ;;;
       get_x11_clipboard)
  else ret (x_data, x_mime).

(** Lines 206-234: both reads, then the HTML stripping of each side.  The
    result is the pair of snapshots the rules below compare. *)
Definition read_snapshots : M ((bytes * str) * (bytes * str)) :=
  w <- get_wayland_clipboard ;;
  x <- get_x11_clipboard ;;
  w <- strip_html_wayland w ;;
  x <- strip_html_x11 x ;;
  ret (w, x).

(** The comparison key of a snapshot (lines 237-238). *)
Definition norm_data (data : bytes) (mime : str) : bytes :=
  if is_text_mime mime then normalize_text data else data.

(** Lines 236-279: the four rules. *)
Definition apply_rules (st : EngineState) (w x : bytes * str) : M EngineState :=
  let '(w_data, w_mime) := w in
  let '(x_data, x_mime) := x in
  let norm_w_data := norm_data w_data w_mime in
  let norm_x_data := norm_data x_data x_mime in
  if bytes_neb w_data (last_w_data st) && bytes_neb norm_w_data norm_x_data then
    st <- (if bytes_neb w_data (last_x_data st) then
             print (MsgWaylandToX11 w_mime) ;;;
             set_x11_clipboard w_data w_mime ;;;
             ret (mkState (last_w_data st) (last_w_mime st) w_data w_mime)
           else ret st) ;;
    ret (mkState w_data w_mime (last_x_data st) (last_x_mime st))
  else if bytes_neb x_data (last_x_data st) && bytes_neb norm_x_data norm_w_data then
    st <- (if bytes_neb x_data (last_w_data st) then
             print (MsgX11ToWayland x_mime) ;;;
             set_wayland_clipboard x_data x_mime ;;;
             ret (mkState x_data x_mime (last_x_data st) (last_x_mime st))
           else ret st) ;;
    ret (mkState (last_w_data st) (last_w_mime st) x_data x_mime)
  else if bytes_neb w_data (last_w_data st) && bytes_neb x_data (last_x_data st) then
    print (MsgConflict w_mime) ;;;
    st <- (if bytes_neb w_data (last_x_data st) then
             set_x11_clipboard w_data w_mime ;;;
             ret (mkState (last_w_data st) (last_w_mime st) w_data w_mime)
           else ret st) ;;
    ret (mkState w_data w_mime (last_x_data st) (last_x_mime st))
  else
    st <- (if bytes_neb w_data [] then
             ret (mkState w_data w_mime (last_x_data st) (last_x_mime st))
           else ret st) ;;
    if bytes_neb x_data [] then
      ret (mkState (last_w_data st) (last_w_mime st) x_data x_mime)
    else ret st.

(** One pass of the [while True] body after the wake-up, lines 205-279. *)
Definition cycle (st : EngineState) : M EngineState :=
  wx <- read_snapshots ;;
  apply_rules st (fst wx) (snd wx).

(** [subprocess.Popen(['clipnotify']); p.wait()], lines 202-203. *)
Definition wait_for_change : M unit :=
  fun wd =>
    let wd' := mkWorld (oracle wd) (html_parser wd) (S (clock wd))
                       (trace wd ++ [Ran Clipnotify]) in
    match oracle wd (clock wd) Clipnotify with
    | Exited _ _ => (Ok tt, wd')
    | Failed => (Raised, wd')
    end.

(** [n] turns of the [while True] loop, lines 200-279. *)
Fixpoint loop (n : nat) (st : EngineState) : M EngineState :=
  match n with
  | O => ret st
  | S n' =>
      wait_for_change ;;;
      st' <- cycle st ;;
      loop n' st'
  end.

(** The check of the required tools, lines 187-190; [Some tool] is the
    first one missing. *)
Fixpoint check_tools (tools : list str) : M (option str) :=
  match tools with
  | [] => ret None
  | tool :: tools' =>
      found <- command_exists tool ;;
      if found then check_tools tools' else ret (Some tool)
  end.

(** [main], lines 185-279, cut after [n] turns of its loop; [None] when a
    tool is missing and the loop is never entered. *)
Definition main (n : nat) : M (option EngineState) :=
  missing <- check_tools [lit "wl-copy"; lit "wl-paste"; lit "xclip"; lit "clipnotify"] ;;
  match missing with
  | Some tool => print (MsgToolMissing tool) ;;; ret None
  | None =>
      print MsgStarting ;;;
      st <- loop n initial_state ;;
      ret (Some st)
  end.

(** ** Observing a run *)

Inductive Side : Type := Wayland | X11.

Definition other (side : Side) : Side :=
  match side with Wayland => X11 | X11 => Wayland end.

Definition last_data (st : EngineState) (side : Side) : bytes :=
  match side with Wayland => last_w_data st | X11 => last_x_data st end.

Definition last_snapshot (st : EngineState) (side : Side) : bytes * str :=
  match side with
  | Wayland => (last_w_data st, last_w_mime st)
  | X11 => (last_x_data st, last_x_mime st)
  end.

(** The snapshot of [side] in the pair [read_snapshots] returns. *)
Definition snapshot_of (wx : (bytes * str) * (bytes * str)) (side : Side)
  : bytes * str :=
  match side with Wayland => fst wx | X11 => snd wx end.

(** A write to a clipboard: the side written, the bytes and the target
    given to the helper. *)
Definition write_of (e : Event) : option (Side * bytes * str) :=
  match e with
  | Ran (WlCopy mime input) => Some (Wayland, input, mime)
  | Ran (XclipIn mime input) => Some (X11, input, mime)
  | _ => None
  end.

Fixpoint writes_in (evs : list Event) : list (Side * bytes * str) :=
  match evs with
  | [] => []
  | e :: evs' =>
      match write_of e with
      | Some wr => wr :: writes_in evs'
      | None => writes_in evs'
      end
  end.

Definition is_side (a b : Side) : bool :=
  match a, b with
  | Wayland, Wayland | X11, X11 => true
  | _, _ => false
  end.

Definition writes_to (side : Side) (evs : list Event) : list (Side * bytes * str) :=
  filter (fun wr => is_side (fst (fst wr)) side) (writes_in evs).

(** The events between two worlds of one run. *)
Definition events_since (wd wd' : World) : list Event :=
  skipn (length (trace wd)) (trace wd').

(** Events of the reading phase: no write, no message of a rule. *)
Definition silent (e : Event) : bool :=
  match e with
  | Ran (WlCopy _ _) | Ran (XclipIn _ _) => false
  | Printed (MsgWaylandToX11 _) | Printed (MsgX11ToWayland _)
  | Printed (MsgConflict _) => false
  | _ => true
  end.

(** The world right after [msg] is printed. *)
Definition printed (msg : Message) (wd : World) : World :=
  mkWorld (oracle wd) (html_parser wd) (clock wd) (trace wd ++ [Printed msg]).

(** [wd'] is [wd] after the events [evs]: the world answers as before. *)
Definition grows (wd wd' : World) (evs : list Event) : Prop :=
  trace wd' = trace wd ++ evs
  /\ oracle wd' = oracle wd
  /\ html_parser wd' = html_parser wd.

(** A computation that always returns normally. *)
Definition total {A} (m : M A) : Prop :=
  forall wd, exists a wd', m wd = (Ok a, wd').

(** A computation of the reading phase. *)
Definition quiet {A} (m : M A) : Prop :=
  forall wd r wd', m wd = (r, wd') ->
    exists evs, grows wd wd' evs /\ forallb silent evs = true.

(** ** The rules, as the design states them

    [outcome st w x st' evs]: from the remembered state [st] and the
    current snapshots [w] (Wayland) and [x] (X11), the first matching rule
    leaves the state [st'] and causes the events [evs]. *)

Definition key (s : bytes * str) : bytes := norm_data (fst s) (snd s).

Definition rule_A_applies (st : EngineState) (w x : bytes * str) : Prop :=
  fst w <> last_w_data st /\ key w <> key x.

Definition rule_B_applies (st : EngineState) (w x : bytes * str) : Prop :=
  fst x <> last_x_data st /\ key x <> key w.

Definition rule_C_applies (st : EngineState) (w x : bytes * str) : Prop :=
  fst w <> last_w_data st /\ fst x <> last_x_data st.

(** Rule D: each side with non-empty data is remembered as it is now. *)
Definition refresh (st : EngineState) (w x : bytes * str) : EngineState :=
  mkState
    (match fst w with [] => last_w_data st | _ :: _ => fst w end)
    (match fst w with [] => last_w_mime st | _ :: _ => snd w end)
    (match fst x with [] => last_x_data st | _ :: _ => fst x end)
    (match fst x with [] => last_x_mime st | _ :: _ => snd x end).

(** A failed write leaves a traceback on the output and nothing else. *)
Inductive after_write : list Event -> Prop :=
| write_ok : after_write []
| write_failed : after_write [Printed MsgTraceback].

Inductive outcome (st : EngineState) (w x : bytes * str)
  : EngineState -> list Event -> Prop :=
| rule_A_write tb :
    rule_A_applies st w x -> fst w <> last_x_data st -> after_write tb ->
    outcome st w x (mkState (fst w) (snd w) (fst w) (snd w))
      (Printed (MsgWaylandToX11 (snd w)) :: Ran (XclipIn (snd w) (fst w)) :: tb)
| rule_A_guarded :
    rule_A_applies st w x -> fst w = last_x_data st ->
    outcome st w x
      (mkState (fst w) (snd w) (last_x_data st) (last_x_mime st)) []
| rule_B_write tb :
    ~ rule_A_applies st w x ->
    rule_B_applies st w x -> fst x <> last_w_data st -> after_write tb ->
    outcome st w x (mkState (fst x) (snd x) (fst x) (snd x))
      (Printed (MsgX11ToWayland (snd x))
       :: Ran (WlCopy (if is_text_mime (snd x)
                       then lit "text/plain;charset=utf-8" else snd x) (fst x))
       :: tb)
| rule_B_guarded :
    ~ rule_A_applies st w x ->
    rule_B_applies st w x -> fst x = last_w_data st ->
    outcome st w x
      (mkState (last_w_data st) (last_w_mime st) (fst x) (snd x)) []
| rule_C_write tb :
    ~ rule_A_applies st w x -> ~ rule_B_applies st w x ->
    rule_C_applies st w x -> fst w <> last_x_data st -> after_write tb ->
    outcome st w x (mkState (fst w) (snd w) (fst w) (snd w))
      (Printed (MsgConflict (snd w)) :: Ran (XclipIn (snd w) (fst w)) :: tb)
| rule_C_guarded :
    ~ rule_A_applies st w x -> ~ rule_B_applies st w x ->
    rule_C_applies st w x -> fst w = last_x_data st ->
    outcome st w x
      (mkState (fst w) (snd w) (last_x_data st) (last_x_mime st))
      [Printed (MsgConflict (snd w))]
| rule_D :
    ~ rule_A_applies st w x -> ~ rule_B_applies st w x ->
    ~ rule_C_applies st w x ->
    outcome st w x (refresh st w x) [].

(** ** The priority of the MIME selector, as the design states it

    [selects targets m]: [m] is the first match of the fixed order in the
    advertised [targets], or the default when nothing matches. *)

Definition no_image (targets : list str) : Prop :=
  forall u, In u targets -> startswith u (lit "image/") = false.

Inductive selects (targets : list str) : str -> Prop :=
| sel_uri_list :
    In (lit "text/uri-list") targets ->
    selects targets (lit "text/uri-list")
| sel_html :
    ~ In (lit "text/uri-list") targets ->
    In (lit "text/html") targets ->
    selects targets (lit "text/html")
| sel_image before t after :
    ~ In (lit "text/uri-list") targets ->
    ~ In (lit "text/html") targets ->
    targets = before ++ t :: after ->
    no_image before -> startswith t (lit "image/") = true ->
    selects targets t
| sel_plain_utf8 :
    ~ In (lit "text/uri-list") targets ->
    ~ In (lit "text/html") targets ->
    no_image targets ->
    In (lit "text/plain;charset=utf-8") targets ->
    selects targets (lit "text/plain;charset=utf-8")
| sel_plain :
    ~ In (lit "text/uri-list") targets ->
    ~ In (lit "text/html") targets ->
    no_image targets ->
    ~ In (lit "text/plain;charset=utf-8") targets ->
    In (lit "text/plain") targets ->
    selects targets (lit "text/plain")
| sel_utf8_string :
    ~ In (lit "text/uri-list") targets ->
    ~ In (lit "text/html") targets ->
    no_image targets ->
    ~ In (lit "text/plain;charset=utf-8") targets ->
    ~ In (lit "text/plain") targets ->
    In (lit "UTF8_STRING") targets ->
    selects targets (lit "UTF8_STRING")
| sel_default :
    ~ In (lit "text/uri-list") targets ->
    ~ In (lit "text/html") targets ->
    no_image targets ->
    ~ In (lit "text/plain;charset=utf-8") targets ->
    ~ In (lit "text/plain") targets ->
    ~ In (lit "UTF8_STRING") targets ->
    selects targets (lit "text/plain;charset=utf-8").

End Clipsync.

(* ------------------------------------------------------------------ *)
(** * Concrete runs *)

Module Scenario.

Import Py Clipsync.
Local Open Scope string_scope.

Definition text_plain : str := lit "text/plain".
Definition text_plain_utf8 : str := lit "text/plain;charset=utf-8".
Definition text_html : str := lit "text/html".

(** [b"a\x00\n"] *)
Definition a_nul_lf : bytes := [Byte.x61; Byte.x00; Byte.x0a].

Definition parser_fails : str -> option str := fun _ => None.

(** A world whose two clipboards answer the same at every call. *)
Definition steady (wl_targets wl_data x_targets x_data : Outcome) : World :=
  mkWorld
    (fun _ c =>
       match c with
       | WlPasteList => wl_targets
       | WlPaste _ => wl_data
       | XclipTargets => x_targets
       | XclipOut _ => x_data
       | _ => Exited 0 []
       end)
    parser_fails 0 [].

(** Wayland holds [one] and X11 holds [two]; the fifth process call is
    the write to X11, after which X11 gives back what was written. *)
Definition one_then_synced : World :=
  mkWorld
    (fun n c =>
       match c with
       | WlPasteList => Exited 0 (blit "text/plain")
       | WlPaste _ => Exited 0 (blit "one")
       | XclipTargets => Exited 0 (blit "text/plain")
       | XclipOut _ => Exited 0 (if (n <? 4)%nat then blit "two" else blit "one")
       | _ => Exited 0 []
       end)
    parser_fails 0 [].

(** Both sides remember [hello]; X11 still holds it, and the Wayland read
    times out. *)
Definition hello_state : EngineState :=
  mkState (blit "hello") text_plain (blit "hello") text_plain.

Definition wayland_read_times_out : World :=
  steady (Exited 0 (blit "text/plain")) Failed
         (Exited 0 (blit "text/plain")) (Exited 0 (blit "hello")).

(** Wayland offers HTML that the parser rejects, and the second read of
    Wayland (process calls 4 and 5) times out. *)
Definition html_then_timeout : World :=
  mkWorld
    (fun n c =>
       match c with
       | WlPasteList => Exited 0 (blit "text/html")
       | WlPaste _ => if (n <? 4)%nat then Exited 0 (blit "<b>x</b>") else Failed
       | XclipTargets => Exited 0 []
       | XclipOut _ => Exited 0 []
       | _ => Exited 0 []
       end)
    parser_fails 0 [].

(** The X11 write fails (xclip exits with 1); everything else as in
    [one_then_synced]. *)
Definition write_fails : World :=
  mkWorld
    (fun n c =>
       match c with
       | WlPasteList => Exited 0 (blit "text/plain")
       | WlPaste _ => Exited 0 (blit "one")
       | XclipTargets => Exited 0 (blit "text/plain")
       | XclipOut _ => Exited 0 (blit "two")
       | XclipIn _ _ => Exited 1 []
       | _ => Exited 0 []
       end)
    parser_fails 0 [].

(** [b"a\n"] *)
Definition a_lf : bytes := [Byte.x61; Byte.x0a].

(** Wayland holds [b"a\n"] as an image target, unchanged; X11 now holds
    the same bytes as text. *)
Definition echo_state : EngineState :=
  mkState a_lf (lit "image/png") (blit "old") text_plain.

Definition echo_world : World :=
  steady (Exited 0 (blit "image/png")) (Exited 0 a_lf)
         (Exited 0 (blit "text/plain")) (Exited 0 a_lf).

(** Both sides changed, to texts with the same comparison key. *)
Definition conflict_world : World :=
  steady (Exited 0 (blit "text/plain")) (Exited 0 a_lf)
         (Exited 0 (blit "text/plain")) (Exited 0 (blit "a")).

(** A parser that accepts [<b>x</b>] only, giving [x]. *)
Definition parser_accepts_bx : str -> option str :=
  fun s => if str_eqb s (lit "<b>x</b>") then Some (lit "x") else None.

(** Wayland first offers HTML the parser rejects, and on the second read
    (process calls 4 and 5) the HTML [<b>x</b>], which is propagated to X11
    as it is (call 6); after the wake-up (call 7) both clipboards give that
    HTML back under text/html. *)
Definition html_kept_then_parsed : World :=
  mkWorld
    (fun n c =>
       match c with
       | WlPasteList => Exited 0 (blit "text/html")
       | WlPaste _ => Exited 0 (if (n <? 5)%nat then blit "<i" else blit "<b>x</b>")
       | XclipTargets => Exited 0 (if (n <? 6)%nat then [] else blit "text/html")
       | XclipOut _ => Exited 0 (if (n <? 6)%nat then [] else blit "<b>x</b>")
       | _ => Exited 0 []
       end)
    parser_accepts_bx 0 [].

(** The state after the first pass in [html_kept_then_parsed]. *)
Definition html_kept_state : EngineState :=
  mkState (blit "<b>x</b>") text_html (blit "<b>x</b>") text_html.

(** Wayland is empty, X11 holds [two], and the write to Wayland raises. *)
Definition wayland_write_raises : World :=
  mkWorld
    (fun _ c =>
       match c with
       | XclipTargets => Exited 0 (blit "text/plain")
       | XclipOut _ => Exited 0 (blit "two")
       | WlCopy _ _ => Failed
       | _ => Exited 0 []
       end)
    parser_fails 0 [].

(** The two sides of [conflict_world], with a failing write to X11. *)
Definition conflict_write_fails : World :=
  mkWorld
    (fun _ c =>
       match c with
       | WlPasteList => Exited 0 (blit "text/plain")
       | WlPaste _ => Exited 0 a_lf
       | XclipTargets => Exited 0 (blit "text/plain")
       | XclipOut _ => Exited 0 (blit "a")
       | XclipIn _ _ => Exited 1 []
       | _ => Exited 0 []
       end)
    parser_fails 0 [].

End Scenario.

(* ------------------------------------------------------------------ *)
(** * Further notions *)

Module Notions.

Import Py Clipsync.

(** The targets a backend advertises, read off the answer to its listing
    call: the lines of the decoded output of a helper that exits with 0,
    nothing when it exits with an error or raises. *)
Definition advertised (o : Outcome) : list str :=
  match o with
  | Exited rc out => if rc =? 0 then splitlines (decode_utf8 out) else []
  | Failed => []
  end.

(** The bytes [b'\n'] and [b'\r']. *)
Definition is_line_end (b : byte) : bool :=
  Byte.eqb b Byte.x0a || Byte.eqb b Byte.x0d.

(** An upper bound on the bytes [str.encode] writes for a code point. *)
Definition encoded_size (ch : Z) : nat :=
  if ch <? 0x80 then 1%nat
  else if ch <? 0x800 then 2%nat
  else if ch <? 0x10000 then 3%nat
  else 4%nat.

(** What a pass of the loop may do: clipboard helpers and their
    messages, never [which], [clipnotify] or a start-up message. *)
Definition is_sync_event (e : Event) : bool :=
  match e with
  | Ran (Which _) | Ran Clipnotify => false
  | Printed (MsgToolMissing _) | Printed MsgStarting => false
  | _ => true
  end.

(** A computation that makes at most [k] process calls, all of them of a
    pass, and leaves the world's answers as they are. *)
Definition bounded {A} (k : nat) (m : M A) : Prop :=
  forall wd r wd', m wd = (r, wd') ->
    exists evs,
      grows wd wd' evs
      /\ forallb is_sync_event evs = true
      /\ (clock wd <= clock wd' <= clock wd + k)%nat.

(** The tools [main] requires. *)
Definition required_tools : list str :=
  [lit "wl-copy"; lit "wl-paste"; lit "xclip"; lit "clipnotify"].

(** From process call [k] on, [which] found each of [tools], one call per
    tool and in their order. *)
Definition found_from (wd : World) (k : nat) (tools : list str) : Prop :=
  forall i t, nth_error tools i = Some t ->
    exists out, oracle wd (k + i) (Which t) = Exited 0 out.

(** No character of the line is a line boundary. *)
Definition one_line (s : str) : bool := forallb (fun c => negb (is_linebreak c)) s.

(** A call made with [check=True] fails: the helper raises or exits with an
    error. *)
Definition checked_call_fails (o : Outcome) : bool :=
  match o with
  | Exited rc _ => negb (rc =? 0)
  | Failed => true
  end.

(** A parser that never raises (it returns its input). *)
Definition parser_keeps_all : str -> option str := fun s => Some s.

(** Wayland offers HTML that the parser accepts; X11 is empty. *)
Definition html_accepted : World :=
  mkWorld
    (fun _ c =>
       match c with
       | WlPasteList => Exited 0 (blit "text/html")
       | WlPaste _ => Exited 0 (blit "<b>x</b>")
       | _ => Exited 0 []
       end)
    parser_keeps_all 0 [].

(** [wl-paste -l] exits with an error; [wl-paste -t] still answers. *)
Definition listing_broken : World :=
  mkWorld
    (fun _ c =>
       match c with
       | WlPasteList => Exited 1 (blit "text/html")
       | WlPaste _ => Exited 0 (blit "hi")
       | _ => Exited 0 []
       end)
    (fun _ => None) 0 [].

(** All tools are found, and [clipnotify] cannot be started. *)
Definition no_clipnotify : World :=
  mkWorld
    (fun _ c =>
       match c with
       | Clipnotify => Failed
       | _ => Exited 0 []
       end)
    (fun _ => None) 0 [].

(** [which xclip] exits with 1. *)
Definition xclip_missing : World :=
  mkWorld
    (fun _ c =>
       match c with
       | Which tool => if str_eqb tool (lit "xclip") then Exited 1 [] else Exited 0 []
       | _ => Exited 0 []
       end)
    (fun _ => None) 0 [].

End Notions.

(* ------------------------------------------------------------------ *)
(** * The Python built-ins *)

Module PyFacts.
Import Py.

Lemma str_eqb_eq (a b : str) : str_eqb a b = true <-> a = b.
Proof.
  revert b; induction a as [|x a IH]; intros [|y b]; simpl; try easy.
  rewrite andb_true_iff, Z.eqb_eq, IH. split.
  - intros [-> ->]; reflexivity.
  - intros H; injection H; auto.
Qed.

Lemma bytes_eqb_eq (a b : bytes) : bytes_eqb a b = true <-> a = b.
Proof.
  revert b; induction a as [|x a IH]; intros [|y b]; simpl; try easy.
  rewrite andb_true_iff, IH. split.
  - intros [H ->]. apply Byte.byte_dec_bl in H. now subst.
  - intros H; injection H as -> ->. split; [apply Byte.byte_dec_lb|]; reflexivity.
Qed.

Lemma ord_range (b : byte) : 0 <= ord b < 256.
Proof. unfold ord. pose proof (Byte.to_N_bounded b). lia. Qed.

Lemma ord_chr8 (z : Z) : 0 <= z < 256 -> ord (chr8 z) = z.
Proof.
  intros Hz. unfold ord, chr8.
  destruct (Byte.of_N (Z.to_N z)) as [b|] eqn:E.
  - apply Byte.to_of_N in E. rewrite E. lia.
  - apply Byte.of_N_None_iff in E. lia.
Qed.

(** [base | h] is [base + h] when checked for every [h] below [n]. *)
Lemma lor_add_below (base : Z) (n : nat) :
  forallb (fun h => Z.lor base h =? base + h) (List.map Z.of_nat (seq 0 n)) = true ->
  forall h, 0 <= h < Z.of_nat n -> Z.lor base h = base + h.
Proof.
  intros H h Hh. rewrite forallb_forall in H.
  apply Z.eqb_eq, H. apply in_map_iff. exists (Z.to_nat h). split; [lia|].
  apply in_seq. lia.
Qed.

Lemma lor_80 h : 0 <= h < 64 -> Z.lor 0x80 h = 0x80 + h.
Proof. apply (lor_add_below 0x80 64). vm_compute. reflexivity. Qed.
Lemma lor_C0 h : 0 <= h < 32 -> Z.lor 0xC0 h = 0xC0 + h.
Proof. apply (lor_add_below 0xC0 32). vm_compute. reflexivity. Qed.
Lemma lor_E0 h : 0 <= h < 16 -> Z.lor 0xE0 h = 0xE0 + h.
Proof. apply (lor_add_below 0xE0 16). vm_compute. reflexivity. Qed.
Lemma lor_F0 h : 0 <= h < 8 -> Z.lor 0xF0 h = 0xF0 + h.
Proof. apply (lor_add_below 0xF0 8). vm_compute. reflexivity. Qed.

Lemma land_3F z : Z.land z 0x3F = z mod 64.
Proof. change 0x3F with (Z.ones 6). rewrite Z.land_ones by lia. reflexivity. Qed.

Lemma shiftr_div z n : 0 <= n -> Z.shiftr z n = z / 2 ^ n.
Proof. intros. apply Z.shiftr_div_pow2; assumption. Qed.

Lemma shiftl_mul z n : 0 <= n -> Z.shiftl z n = z * 2 ^ n.
Proof. intros. apply Z.shiftl_mul_pow2; assumption. Qed.

Ltac dlia := Z.div_mod_to_equations; lia.

(** Decide the comparisons in the condition of the [if] at the head of the
    goal. *)
Ltac head_if :=
  repeat (cbn [negb andb orb];
    match goal with
    | |- (if ?c then _ else _) = _ =>
        match c with
        | context [?a <? ?b] => destruct (Z.ltb_spec a b); try lia
        | context [?a <=? ?b] => destruct (Z.leb_spec a b); try lia
        | context [?a =? ?b] => destruct (Z.eqb_spec a b); try lia
        end
    end); cbn [negb andb orb].

(** The four well-formed shapes, one decoding step each. *)
Lemma decode_ascii c1 t1 :
  ord c1 < 0x80 -> decode (c1 :: t1) = ord c1 :: decode t1.
Proof. intros. cbn [decode]. head_if. reflexivity. Qed.

Lemma decode_two c1 c2 t1 t2 :
  t1 = c2 :: t2 ->
  0xC2 <= ord c1 < 0xE0 -> 0x80 <= ord c2 < 0xC0 ->
  decode (c1 :: t1) = (ord c1 * 64 + ord c2 - 0x3080) :: decode t2.
Proof.
  intros E H1 H2. cbn [decode]; head_if; subst t1;
  unfold is_continuation; head_if; rewrite shiftl_mul by lia; reflexivity.
Qed.

Lemma decode_three c1 c2 c3 t1 t2 t3 :
  t1 = c2 :: t2 -> t2 = c3 :: t3 ->
  0xE0 <= ord c1 < 0xF0 -> 0x80 <= ord c2 < 0xC0 -> 0x80 <= ord c3 < 0xC0 ->
  (ord c1 = 0xE0 -> 0xA0 <= ord c2) -> (ord c1 = 0xED -> ord c2 < 0xA0) ->
  decode (c1 :: t1)
  = (ord c1 * 4096 + ord c2 * 64 + ord c3 - 0xE2080) :: decode t3.
Proof.
  intros E1 E2 H1 H2 H3 Ha Hb. cbn [decode]; head_if; subst t1;
  unfold is_continuation; head_if; subst t2; head_if;
  rewrite !shiftl_mul by lia; reflexivity.
Qed.

Lemma decode_four c1 c2 c3 c4 t1 t2 t3 t4 :
  t1 = c2 :: t2 -> t2 = c3 :: t3 -> t3 = c4 :: t4 ->
  0xF0 <= ord c1 < 0xF5 -> 0x80 <= ord c2 < 0xC0 ->
  0x80 <= ord c3 < 0xC0 -> 0x80 <= ord c4 < 0xC0 ->
  (ord c1 = 0xF0 -> 0x90 <= ord c2) -> (ord c1 = 0xF4 -> ord c2 < 0x90) ->
  decode (c1 :: t1)
  = (ord c1 * 262144 + ord c2 * 4096 + ord c3 * 64 + ord c4 - 0x3C82080)
      :: decode t4.
Proof.
  intros E1 E2 E3 H1 H2 H3 H4 Ha Hb. cbn [decode]; head_if; subst t1;
  unfold is_continuation; head_if; subst t2; head_if; subst t3; head_if;
  rewrite !shiftl_mul by lia; reflexivity.
Qed.

Lemma decode_encode_char (ch : Z) (bs : bytes) :
  is_scalar ch = true -> decode (encode_char ch ++ bs) = ch :: decode bs.
Proof.
  unfold is_scalar, is_surrogate. rewrite !andb_true_iff, negb_true_iff, andb_false_iff.
  rewrite Z.leb_le, Z.ltb_lt, !Z.leb_gt. intros [[H0 H1] H2].
  unfold encode_char, is_surrogate.
  destruct (Z.ltb_spec ch 0x80).
  { cbn [app]. rewrite decode_ascii; rewrite ord_chr8 by lia; [reflexivity | lia]. }
  rewrite !shiftr_div, !land_3F by lia.
  change (2 ^ 6) with 64; change (2 ^ 12) with 4096; change (2 ^ 18) with 262144.
  destruct (Z.ltb_spec ch 0x800).
  { assert (D : ch = 64 * (ch / 64) + ch mod 64 /\ 0 <= ch mod 64 < 64) by dlia.
    remember (ch / 64) as a eqn:Ea. remember (ch mod 64) as b eqn:Eb. clear Ea Eb.
    rewrite lor_C0, lor_80 by lia. cbn [app].
    erewrite decode_two; [ | reflexivity | rewrite ord_chr8; lia ..].
    rewrite !ord_chr8 by lia. f_equal. lia. }
  destruct (Z.leb_spec 0xD800 ch); destruct (Z.leb_spec ch 0xDFFF); cbn [andb]; try lia.
  all: destruct (Z.ltb_spec ch 0x10000).
  1,3: assert (D : ch = 4096 * (ch / 4096) + 64 * ((ch / 64) mod 64) + ch mod 64
                 /\ 0 <= (ch / 64) mod 64 < 64 /\ 0 <= ch mod 64 < 64) by dlia.
  1,2: remember (ch / 4096) as a eqn:Ea; remember ((ch / 64) mod 64) as b eqn:Eb;
       remember (ch mod 64) as c eqn:Ec; clear Ea Eb Ec.
  3,4: assert (D : ch = 262144 * (ch / 262144) + 4096 * ((ch / 4096) mod 64)
                      + 64 * ((ch / 64) mod 64) + ch mod 64
                 /\ 0 <= (ch / 4096) mod 64 < 64
                 /\ 0 <= (ch / 64) mod 64 < 64 /\ 0 <= ch mod 64 < 64) by dlia.
  3,4: remember (ch / 262144) as a eqn:Ea; remember ((ch / 4096) mod 64) as b eqn:Eb;
       remember ((ch / 64) mod 64) as c eqn:Ec; remember (ch mod 64) as d eqn:Ed;
       clear Ea Eb Ec Ed.
  all: try lia.
  all: rewrite ?lor_E0, ?lor_F0, ?lor_80 by lia; cbn [app].
  1,2: erewrite decode_three; [ | reflexivity | reflexivity | rewrite ?ord_chr8; lia ..].
  3: erewrite decode_four;
       [ | reflexivity | reflexivity | reflexivity | rewrite ?ord_chr8; lia ..].
  all: rewrite !ord_chr8 by lia; f_equal; lia.
Qed.

Lemma decode_encode (s : str) :
  Forall (fun ch => is_scalar ch = true) s -> decode (encode s) = s.
Proof.
  induction 1 as [|ch s Hch _ IH]; [reflexivity|].
  cbn [encode]. rewrite decode_encode_char by assumption. now rewrite IH.
Qed.

Lemma is_scalar_iff ch :
  is_scalar ch = true <-> 0 <= ch < 0x110000 /\ (ch < 0xD800 \/ 0xDFFF < ch).
Proof.
  unfold is_scalar, is_surrogate.
  rewrite !andb_true_iff, negb_true_iff, andb_false_iff.
  rewrite Z.leb_le, Z.ltb_lt, !Z.leb_gt. tauto.
Qed.

(** Decoding with [errors='replace'] never produces a surrogate or a value
    out of range. *)
Lemma decode_scalar (bs : bytes) :
  Forall (fun ch => is_scalar ch = true) (decode bs).
Proof.
  remember (length bs) as n eqn:Hn.
  assert (Hle : (length bs <= n)%nat) by lia. clear Hn.
  revert bs Hle. induction n as [|n IH]; intros [|c1 t1] Hle;
    cbn [length] in Hle; try (constructor; fail); try lia.
  pose proof (ord_range c1) as R1.
  cbn [decode]. unfold is_continuation, REPLACEMENT.
  repeat (cbn [negb andb orb];
    match goal with
    | |- Forall _ (if ?c then _ else _) =>
        match c with
        | context [?a <? ?b] => destruct (Z.ltb_spec a b)
        | context [?a <=? ?b] => destruct (Z.leb_spec a b)
        | context [?a =? ?b] => destruct (Z.eqb_spec a b)
        end
    | |- Forall _ (match ?t with [] => _ | _ :: _ => _ end) =>
        let c := fresh "c" in
        destruct t as [|c ?]; [ | pose proof (ord_range c)]
    | |- Forall _ (_ :: _) => constructor
    | |- Forall _ [] => constructor
    | |- Forall _ (decode _) => apply IH; cbn [length] in Hle |- *; lia
    | |- is_scalar _ = true =>
        apply is_scalar_iff; rewrite ?shiftl_mul by lia; lia
    end).
Qed.

Lemma encode_app (a b : str) : encode (a ++ b) = encode a ++ encode b.
Proof.
  induction a as [|c a IH]; [reflexivity|].
  cbn [app encode]. now rewrite IH, app_assoc.
Qed.

Lemma encode_inj (a b : str) :
  Forall (fun ch => is_scalar ch = true) a ->
  Forall (fun ch => is_scalar ch = true) b ->
  encode a = encode b -> a = b.
Proof.
  intros Ha Hb E. rewrite <- (decode_encode a Ha), <- (decode_encode b Hb).
  now rewrite E.
Qed.

(** ** Stripping *)

Lemma lstrip_idem chars s : lstrip chars (lstrip chars s) = lstrip chars s.
Proof.
  induction s as [|c s IH]; [reflexivity|].
  cbn [lstrip]. destruct (mem c chars) eqn:E; [exact IH|].
  cbn [lstrip]. now rewrite E.
Qed.

Lemma rstrip_snoc chars s c :
  rstrip chars (s ++ [c]) = if mem c chars then rstrip chars s else s ++ [c].
Proof.
  induction s as [|d s IH].
  - cbn. destruct (mem c chars); reflexivity.
  - cbn [app rstrip]. rewrite IH. destruct (mem c chars); [reflexivity|].
    destruct (s ++ [c]) eqn:E; [|reflexivity].
    now destruct s.
Qed.

Lemma rstrip_fix chars s : rstripped chars s -> rstrip chars s = s.
Proof.
  intros H. destruct s as [|c s _] using rev_ind; [reflexivity|].
  rewrite rstrip_snoc, (H s c eq_refl). reflexivity.
Qed.

Lemma rstrip_rstripped chars s : rstripped chars (rstrip chars s).
Proof.
  induction s as [|c s IH] using rev_ind.
  - intros [|? ?] ? E; discriminate E.
  - rewrite rstrip_snoc. destruct (mem c chars) eqn:E; [exact IH|].
    intros s' d E'. apply app_inj_tail in E' as [_ <-]. exact E.
Qed.

Lemma rstripped_tail chars c s : rstripped chars (c :: s) -> rstripped chars s.
Proof. intros H s' d ->. apply (H (c :: s') d). reflexivity. Qed.

Lemma lstrip_rstripped chars s :
  rstripped chars s -> rstripped chars (lstrip chars s).
Proof.
  induction s as [|c s IH]; intros H; [exact H|].
  cbn [lstrip]. destruct (mem c chars); [|exact H].
  apply IH. exact (rstripped_tail _ _ _ H).
Qed.

Lemma strip_idem chars s : strip chars (strip chars s) = strip chars s.
Proof.
  unfold strip. rewrite (rstrip_fix chars (lstrip chars (rstrip chars s))).
  - apply lstrip_idem.
  - apply lstrip_rstripped, rstrip_rstripped.
Qed.

Lemma lstrip_length chars s : (length (lstrip chars s) <= length s)%nat.
Proof.
  induction s as [|c s IH]; [reflexivity|].
  cbn [lstrip]. destruct (mem c chars); cbn [length]; lia.
Qed.

Lemma rstrip_length chars s : (length (rstrip chars s) <= length s)%nat.
Proof.
  induction s as [|c s IH] using rev_ind; [reflexivity|].
  rewrite rstrip_snoc. destruct (mem c chars); rewrite ?length_app; cbn [length]; lia.
Qed.

Lemma strip_length chars s : (length (strip chars s) <= length s)%nat.
Proof.
  unfold strip. pose proof (lstrip_length chars (rstrip chars s)).
  pose proof (rstrip_length chars s). lia.
Qed.

Section Preserved.
Variable P : Z -> Prop.

Lemma Forall_lstrip chars s : Forall P s -> Forall P (lstrip chars s).
Proof.
  induction 1 as [|c s Hc Hs IH]; [constructor|].
  cbn [lstrip]. destruct (mem c chars); [exact IH | now constructor].
Qed.

Lemma Forall_rstrip chars s : Forall P s -> Forall P (rstrip chars s).
Proof.
  induction 1 as [|c s Hc Hs IH]; [constructor|].
  cbn [rstrip]. destruct (rstrip chars s) as [|d r].
  - destruct (mem c chars); repeat constructor; assumption.
  - now constructor.
Qed.

Lemma Forall_strip chars s : Forall P s -> Forall P (strip chars s).
Proof. intros. now apply Forall_lstrip, Forall_rstrip. Qed.
End Preserved.

(** ** A trailing NUL, in the text and in its encoding *)

Lemma ends_with_nul_snoc (a : bytes) (b : byte) :
  ends_with_nul (a ++ [b]) = Byte.eqb b Byte.x00.
Proof.
  induction a as [|c a IH]; [reflexivity|].
  cbn [app ends_with_nul]. destruct (a ++ [b]) eqn:E; [now destruct a|].
  exact IH.
Qed.

Lemma chr8_nul (z : Z) : 0 <= z < 256 -> Byte.eqb (chr8 z) Byte.x00 = (z =? 0).
Proof.
  intros Hz. destruct (Z.eqb_spec z 0) as [->|Hn]; [reflexivity|].
  destruct (Byte.eqb (chr8 z) Byte.x00) eqn:E; [|reflexivity].
  apply Byte.byte_dec_bl in E. apply (f_equal ord) in E.
  rewrite ord_chr8 in E by assumption. cbn in E. lia.
Qed.

Lemma encode_char_nul (ch : Z) :
  is_scalar ch = true -> ends_with_nul (encode_char ch) = (ch =? 0).
Proof.
  intros H. apply is_scalar_iff in H. unfold encode_char, is_surrogate.
  rewrite !land_3F.
  assert (0 <= ch mod 64 < 64) by (apply Z.mod_pos_bound; lia).
  rewrite lor_80 by assumption.
  repeat match goal with
         | |- context [if ?a <? ?b then _ else _] => destruct (Z.ltb_spec a b)
         | |- context [if ?a && ?b then _ else _] => destruct (a && b)
         end.
  all: cbn [ends_with_nul]; rewrite chr8_nul by lia.
  all: repeat match goal with
              | |- context [?a =? ?b] => destruct (Z.eqb_spec a b); try lia
              end; reflexivity.
Qed.

Lemma encode_char_nonempty (ch : Z) : encode_char ch <> [].
Proof.
  unfold encode_char.
  repeat match goal with
         | |- context [if ?c then _ else _] => destruct c
         end; discriminate.
Qed.

Lemma ends_with_nul_app (a b : bytes) :
  b <> [] -> ends_with_nul (a ++ b) = ends_with_nul b.
Proof.
  intros Hb. destruct b as [|c b _] using rev_ind; [congruence|].
  rewrite app_assoc, !ends_with_nul_snoc. reflexivity.
Qed.

Lemma encode_snoc_nul (s : str) (ch : Z) :
  is_scalar ch = true -> ends_with_nul (encode (s ++ [ch])) = (ch =? 0).
Proof.
  intros H. rewrite encode_app. cbn [encode]. rewrite app_nil_r.
  rewrite ends_with_nul_app by apply encode_char_nonempty.
  now apply encode_char_nul.
Qed.
End PyFacts.

(* ------------------------------------------------------------------ *)
(** * The text normaliser *)

Module NormFacts.
Import Py PyFacts Clipsync.

Lemma decode_utf8_scalar (data : bytes) :
  Forall (fun ch => is_scalar ch = true) (decode_utf8 data).
Proof. apply Forall_rstrip, decode_scalar. Qed.

(** The text behind a comparison key: what [normalize_text] encodes. *)
Lemma normalize_text_shape (data : bytes) :
  exists s,
    normalize_text data = encode s
    /\ Forall (fun ch => is_scalar ch = true) s
    /\ strip [0x0D; 0x0A] s = s.
Proof.
  exists (strip [0x0D; 0x0A] (decode_utf8 data)). split; [reflexivity|]. split.
  - apply Forall_strip, decode_utf8_scalar.
  - apply strip_idem.
Qed.

Lemma normalize_text_encode (s : str) :
  Forall (fun ch => is_scalar ch = true) s ->
  normalize_text (encode s) = encode (strip [0x0D; 0x0A] (rstrip [0] s)).
Proof.
  intros Hs. unfold normalize_text, decode_utf8.
  now rewrite decode_encode.
Qed.

(** Normalising a second time changes the key exactly when the key ends
    with a NUL byte. *)
Lemma normalize_text_twice (data : bytes) :
  normalize_text (normalize_text data) = normalize_text data
  <-> ends_with_nul (normalize_text data) = false.
Proof.
  destruct (normalize_text_shape data) as (s & -> & Hs & Hfix).
  rewrite normalize_text_encode by assumption.
  destruct s as [|c s _] using rev_ind.
  - cbn. tauto.
  - apply Forall_app in Hs as [Hs Hc]. inversion Hc as [|? ? Hc' _]; subst.
    rewrite encode_snoc_nul by assumption.
    rewrite rstrip_snoc. cbn [mem]. rewrite orb_false_r.
    destruct (Z.eqb_spec c 0) as [->|Hne].
    + split; [|discriminate]. intros E. exfalso.
      apply encode_inj in E.
      * apply (f_equal (@length Z)) in E. rewrite length_app in E. cbn [length] in E.
        pose proof (strip_length [0x0D; 0x0A] (rstrip [0] s)).
        pose proof (rstrip_length [0] s). lia.
      * apply Forall_strip, Forall_rstrip, Hs.
      * apply Forall_app. split; [exact Hs | now constructor].
    + split; [reflexivity|]. intros _. now rewrite Hfix.
Qed.

End NormFacts.

(* ------------------------------------------------------------------ *)
(** * Runs of the monad *)

Module RunFacts.
Import Py PyFacts Clipsync.

Lemma grows_refl wd : grows wd wd [].
Proof. unfold grows. now rewrite app_nil_r. Qed.

Lemma grows_trans wd1 wd2 wd3 e1 e2 :
  grows wd1 wd2 e1 -> grows wd2 wd3 e2 -> grows wd1 wd3 (e1 ++ e2).
Proof.
  intros (T1 & O1 & P1) (T2 & O2 & P2). unfold grows.
  rewrite T2, T1, O2, O1, P2, P1, app_assoc. auto.
Qed.

Lemma grows_emit wd e :
  grows wd (mkWorld (oracle wd) (html_parser wd) (clock wd) (trace wd ++ [e])) [e].
Proof. repeat split. Qed.

Lemma grows_run wd c :
  grows wd (mkWorld (oracle wd) (html_parser wd) (S (clock wd)) (trace wd ++ [Ran c]))
        [Ran c].
Proof. repeat split. Qed.

Lemma events_since_grows wd wd' evs : grows wd wd' evs -> events_since wd wd' = evs.
Proof.
  intros (T & _). unfold events_since. rewrite T.
  rewrite skipn_app, skipn_all, Nat.sub_diag. reflexivity.
Qed.

Lemma writes_in_app a b : writes_in (a ++ b) = writes_in a ++ writes_in b.
Proof.
  induction a as [|e a IH]; [reflexivity|].
  cbn [app writes_in]. destruct (write_of e); cbn [app]; now rewrite IH.
Qed.

Lemma writes_in_silent evs : forallb silent evs = true -> writes_in evs = [].
Proof.
  induction evs as [|e evs IH]; [reflexivity|].
  cbn [forallb writes_in]. rewrite andb_true_iff. intros [He Hs].
  rewrite (IH Hs). destruct e as [[]|]; try reflexivity; discriminate He.
Qed.

Lemma conflict_not_silent evs m :
  forallb silent evs = true -> ~ In (Printed (MsgConflict m)) evs.
Proof.
  rewrite forallb_forall. intros H Hin. apply H in Hin. discriminate Hin.
Qed.

(** ** Totality *)

Lemma total_ret {A} (a : A) : total (ret a).
Proof. intros wd. now exists a, wd. Qed.

Lemma total_bind {A B} (m : M A) (k : A -> M B) :
  total m -> (forall a, total (k a)) -> total (bind m k).
Proof.
  intros Hm Hk wd. unfold bind. destruct (Hm wd) as (a & wd1 & ->). apply Hk.
Qed.

Lemma total_try {A} (body handler : M A) : total handler -> total (try_except body handler).
Proof.
  intros Hh wd. unfold try_except. destruct (body wd) as [[a|] wd1].
  - now exists a, wd1.
  - apply Hh.
Qed.

Lemma total_print msg : total (print msg).
Proof. intros wd. unfold print, emit. eauto. Qed.

(** ** Quiet computations *)

Lemma quiet_ret {A} (a : A) : quiet (ret a).
Proof.
  intros wd r wd' E. injection E as <- <-. exists []. split; [apply grows_refl | reflexivity].
Qed.

Lemma quiet_bind {A B} (m : M A) (k : A -> M B) :
  quiet m -> (forall a, quiet (k a)) -> quiet (bind m k).
Proof.
  intros Hm Hk wd r wd' E. unfold bind in E.
  destruct (m wd) as [[a|] wd1] eqn:Em.
  - destruct (Hm _ _ _ Em) as (e1 & G1 & S1).
    destruct (Hk a _ _ _ E) as (e2 & G2 & S2).
    exists (e1 ++ e2). split; [eapply grows_trans; eassumption|].
    now rewrite forallb_app, S1, S2.
  - injection E as <- <-. eapply Hm; eassumption.
Qed.

Lemma quiet_try {A} (body handler : M A) :
  quiet body -> quiet handler -> quiet (try_except body handler).
Proof.
  intros Hb Hh wd r wd' E. unfold try_except in E.
  destruct (body wd) as [[a|] wd1] eqn:Eb.
  - injection E as <- <-. eapply Hb; eassumption.
  - destruct (Hb _ _ _ Eb) as (e1 & G1 & S1).
    destruct (Hh _ _ _ E) as (e2 & G2 & S2).
    exists (e1 ++ e2). split; [eapply grows_trans; eassumption|].
    now rewrite forallb_app, S1, S2.
Qed.

Lemma quiet_print msg : silent (Printed msg) = true -> quiet (print msg).
Proof.
  intros Hs wd r wd' E. unfold print, emit in E. injection E as <- <-.
  exists [Printed msg]. split; [apply grows_emit|]. cbn [forallb]. now rewrite Hs.
Qed.

Lemma quiet_run c check : silent (Ran c) = true -> quiet (subprocess_run c check).
Proof.
  intros Hs wd r wd' E. exists [Ran c]. split.
  - unfold subprocess_run in E.
    destruct (oracle wd (clock wd) c) as [rc out|];
      [destruct (check && negb (rc =? 0))|]; injection E as <- <-; apply grows_run.
  - cbn [forallb]. now rewrite Hs.
Qed.

Lemma quiet_soup s : quiet (soup_get_text s).
Proof.
  intros wd r wd' E. unfold soup_get_text in E.
  destruct (html_parser wd s); injection E as <- <-;
    (exists []; split; [apply grows_refl | reflexivity]).
Qed.

Create HintDb run.
#[export] Hint Resolve total_ret total_bind total_try total_print : run.
#[export] Hint Resolve quiet_ret quiet_bind quiet_try quiet_print quiet_run
  quiet_soup : run.
#[export] Hint Extern 1 (silent _ = true) => reflexivity : run.

(** ** The reading phase *)

Lemma list_wayland_targets_total : total list_wayland_targets.
Proof. unfold list_wayland_targets. auto with run. Qed.

Lemma list_x11_targets_total : total list_x11_targets.
Proof. unfold list_x11_targets. auto with run. Qed.

#[export] Hint Resolve list_wayland_targets_total list_x11_targets_total : run.

Lemma pick_wayland_mime_total : total pick_wayland_mime.
Proof. unfold pick_wayland_mime. auto with run. Qed.

Lemma pick_x11_mime_total : total pick_x11_mime.
Proof. unfold pick_x11_mime. auto with run. Qed.

#[export] Hint Resolve pick_wayland_mime_total pick_x11_mime_total : run.

Lemma get_wayland_clipboard_total : total get_wayland_clipboard.
Proof. unfold get_wayland_clipboard. auto 6 with run. Qed.

Lemma get_x11_clipboard_total : total get_x11_clipboard.
Proof. unfold get_x11_clipboard. auto 6 with run. Qed.

#[export] Hint Resolve get_wayland_clipboard_total get_x11_clipboard_total : run.

Lemma strip_html_wayland_total w : total (strip_html_wayland w).
Proof.
  destruct w as [d m]. unfold strip_html_wayland.
  destruct (str_eqb m (lit "text/html")); auto 6 with run.
Qed.

Lemma strip_html_x11_total x : total (strip_html_x11 x).
Proof.
  destruct x as [d m]. unfold strip_html_x11.
  destruct (str_eqb m (lit "text/html")); auto 6 with run.
Qed.

#[export] Hint Resolve strip_html_wayland_total strip_html_x11_total : run.

Lemma read_snapshots_total : total read_snapshots.
Proof. unfold read_snapshots. auto 8 with run. Qed.

Lemma get_wayland_clipboard_quiet : quiet get_wayland_clipboard.
Proof.
  unfold get_wayland_clipboard, pick_wayland_mime, list_wayland_targets.
  auto 8 with run.
Qed.

Lemma get_x11_clipboard_quiet : quiet get_x11_clipboard.
Proof.
  unfold get_x11_clipboard, pick_x11_mime, list_x11_targets.
  auto 8 with run.
Qed.

#[export] Hint Resolve get_wayland_clipboard_quiet get_x11_clipboard_quiet : run.

Lemma strip_html_wayland_quiet w : quiet (strip_html_wayland w).
Proof.
  destruct w as [d m]. unfold strip_html_wayland.
  destruct (str_eqb m (lit "text/html")); auto 8 with run.
Qed.

Lemma strip_html_x11_quiet x : quiet (strip_html_x11 x).
Proof.
  destruct x as [d m]. unfold strip_html_x11.
  destruct (str_eqb m (lit "text/html")); auto 8 with run.
Qed.

#[export] Hint Resolve strip_html_wayland_quiet strip_html_x11_quiet : run.

Lemma read_snapshots_quiet : quiet read_snapshots.
Proof. unfold read_snapshots. auto 8 with run. Qed.

(** ** The writes *)

Lemma set_x11_clipboard_run data mime wd :
  exists tb wd',
    set_x11_clipboard data mime wd = (Ok tt, wd')
    /\ grows wd wd' (Ran (XclipIn mime data) :: tb)
    /\ after_write tb.
Proof.
  unfold set_x11_clipboard, try_except, bind, subprocess_run, ret, print, emit.
  destruct (oracle wd (clock wd) (XclipIn mime data)) as [rc out|];
    [destruct (true && negb (rc =? 0))|].
  2: exists [].
  1,3: exists [Printed MsgTraceback].
  all: eexists; split; [reflexivity|]; split; [|constructor].
  all: unfold grows; cbn [trace oracle html_parser]; rewrite <- ?app_assoc; auto.
Qed.

Lemma set_wayland_clipboard_run data mime wd :
  exists tb wd',
    set_wayland_clipboard data mime wd = (Ok tt, wd')
    /\ grows wd wd'
         (Ran (WlCopy (if is_text_mime mime
                       then lit "text/plain;charset=utf-8" else mime) data) :: tb)
    /\ after_write tb.
Proof.
  unfold set_wayland_clipboard, try_except, bind, subprocess_run, ret, print, emit.
  match goal with
  | |- context [oracle wd (clock wd) ?c] =>
      destruct (oracle wd (clock wd) c) as [rc out|];
        [destruct (true && negb (rc =? 0))|]
  end.
  2: exists [].
  1,3: exists [Printed MsgTraceback].
  all: eexists; split; [reflexivity|]; split; [|constructor].
  all: unfold grows; cbn [trace oracle html_parser]; rewrite <- ?app_assoc; auto.
Qed.

(** ** The rules *)

Lemma bytes_neb_true (a b : bytes) : bytes_neb a b = true <-> a <> b.
Proof.
  unfold bytes_neb. rewrite negb_true_iff, <- bytes_eqb_eq.
  destruct (bytes_eqb a b); split; congruence.
Qed.

Lemma bytes_neb_false (a b : bytes) : bytes_neb a b = false <-> a = b.
Proof. unfold bytes_neb. now rewrite negb_false_iff, bytes_eqb_eq. Qed.

Ltac split_neb a b :=
  let E := fresh "E" in
  destruct (bytes_neb a b) eqn:E;
  [apply bytes_neb_true in E | apply bytes_neb_false in E].

Lemma bytes_neb_nil (a : bytes) :
  bytes_neb a [] = match a with [] => false | _ :: _ => true end.
Proof. now destruct a. Qed.

Ltac run_rules :=
  unfold bind, ret, print, emit; cbv beta iota;
  try match goal with
      | |- context [set_x11_clipboard ?d ?m ?wd0] =>
          let tb := fresh "tb" in let wd' := fresh "wd'" in
          let E := fresh "E" in let G := fresh "G" in let T := fresh "T" in
          destruct (set_x11_clipboard_run d m wd0) as (tb & wd' & E & G & T);
          rewrite E; cbv beta iota
      | |- context [set_wayland_clipboard ?d ?m ?wd0] =>
          let tb := fresh "tb" in let wd' := fresh "wd'" in
          let E := fresh "E" in let G := fresh "G" in let T := fresh "T" in
          destruct (set_wayland_clipboard_run d m wd0) as (tb & wd' & E & G & T);
          rewrite E; cbv beta iota
      end;
  do 3 eexists; (split; [reflexivity|]).

Ltac solve_grows :=
  first [ apply grows_refl
        | eassumption
        | apply grows_emit
        | eapply grows_trans; [apply grows_emit | solve_grows] ].

(** The code of the rules does what the rules say. *)
Lemma apply_rules_outcome st w x wd :
  exists st' wd' evs,
    apply_rules st w x wd = (Ok st', wd')
    /\ grows wd wd' evs
    /\ outcome st w x st' evs.
Proof.
  destruct st as [lwd lwm lxd lxm].
  destruct w as [w_data w_mime], x as [x_data x_mime].
  unfold apply_rules. cbn [last_w_data last_w_mime last_x_data last_x_mime].
  rewrite !bytes_neb_nil.
  split_neb w_data lwd;
    split_neb (norm_data w_data w_mime) (norm_data x_data x_mime); cbn [andb].
  2-4: split_neb x_data lxd;
    split_neb (norm_data x_data x_mime) (norm_data w_data w_mime); cbn [andb].
  all: repeat match goal with
              | |- context [bytes_neb ?a ?b] => split_neb a b
              | |- context [match ?l with [] => _ | _ :: _ => _ end] => destruct l
              end.
  all: run_rules.
  all: (split; [solve_grows|]).
  all: cbn [last_w_data last_w_mime last_x_data last_x_mime app].
  all: first
    [ solve [apply rule_A_write; unfold rule_A_applies, key; cbn [fst snd last_w_data last_x_data]; auto]
    | solve [apply rule_A_guarded; unfold rule_A_applies, key; cbn [fst snd last_w_data last_x_data]; auto]
    | solve [apply rule_B_write; unfold rule_A_applies, rule_B_applies, key;
             cbn [fst snd last_w_data last_x_data]; (auto || tauto)]
    | solve [apply rule_B_guarded; unfold rule_A_applies, rule_B_applies, key;
             cbn [fst snd last_w_data last_x_data]; (auto || tauto)]
    | solve [apply rule_C_write;
             unfold rule_A_applies, rule_B_applies, rule_C_applies, key;
             cbn [fst snd last_w_data last_x_data]; (auto || tauto)]
    | solve [apply rule_C_guarded;
             unfold rule_A_applies, rule_B_applies, rule_C_applies, key;
             cbn [fst snd last_w_data last_x_data]; (auto || tauto)]
    | solve [apply rule_D;
             unfold rule_A_applies, rule_B_applies, rule_C_applies, key;
             cbn [fst snd last_w_data last_x_data]; (auto || tauto)]
    ].
Qed.

Lemma after_write_writes tb : after_write tb -> writes_in tb = [].
Proof. now destruct 1. Qed.

Lemma after_write_conflict tb m : after_write tb -> ~ In (Printed (MsgConflict m)) tb.
Proof. destruct 1; cbn; intuition discriminate. Qed.

(** One pass of the loop: the reading phase is quiet, then the rules
    act on the snapshots it returns. *)
Lemma cycle_outcome st wd w x wd1 :
  read_snapshots wd = (Ok (w, x), wd1) ->
  exists st' wd' evs,
    cycle st wd = (Ok st', wd')
    /\ outcome st w x st' evs
    /\ writes_in (events_since wd wd') = writes_in evs
    /\ (forall m, In (Printed (MsgConflict m)) (events_since wd wd')
                  <-> In (Printed (MsgConflict m)) evs).
Proof.
  intros R. destruct (read_snapshots_quiet _ _ _ R) as (e1 & G1 & S1).
  destruct (apply_rules_outcome st w x wd1) as (st' & wd' & e2 & E & G2 & O).
  exists st', wd', e2. unfold cycle, bind. rewrite R. cbn [fst snd].
  split; [exact E|]. split; [exact O|].
  rewrite (events_since_grows _ _ _ (grows_trans _ _ _ _ _ G1 G2)). split.
  - now rewrite writes_in_app, (writes_in_silent _ S1).
  - intros m. rewrite in_app_iff. split; [|auto].
    intros [H|H]; [|exact H]. now apply conflict_not_silent in H.
Qed.

Lemma cycle_total st : total (cycle st).
Proof.
  intros wd. destruct (read_snapshots_total wd) as ([w x] & wd1 & R).
  destruct (cycle_outcome st wd w x wd1 R) as (st' & wd' & _ & E & _). eauto.
Qed.

End RunFacts.

(* ------------------------------------------------------------------ *)
(** * The MIME selector *)

Module SelectorFacts.
Import Py PyFacts Clipsync RunFacts Notions.

Lemma contains_In (x : str) (xs : list str) : contains x xs = true <-> In x xs.
Proof.
  induction xs as [|y ys IH]; cbn [contains In]; [easy|].
  rewrite orb_true_iff, str_eqb_eq, IH. tauto.
Qed.

Lemma contains_not_In (x : str) (xs : list str) : contains x xs = false <-> ~ In x xs.
Proof.
  rewrite <- contains_In. destruct (contains x xs); split; congruence.
Qed.

Lemma first_image_None (targets : list str) :
  first_image targets = None <-> no_image targets.
Proof.
  unfold no_image. induction targets as [|t ts IH]; cbn [first_image In].
  - split; [intros _ u [] | reflexivity].
  - destruct (startswith t (lit "image/")) eqn:E.
    + split; [discriminate|]. intros H. specialize (H t (or_introl eq_refl)). congruence.
    + rewrite IH. split.
      * intros H u [<-|Hu]; auto.
      * intros H u Hu. apply H. now right.
Qed.

Lemma first_image_Some (targets : list str) (t : str) :
  first_image targets = Some t <->
  exists before after,
    targets = before ++ t :: after
    /\ no_image before /\ startswith t (lit "image/") = true.
Proof.
  revert t. induction targets as [|u ts IH]; intros t; cbn [first_image].
  - split; [discriminate|]. intros ([|? ?] & ? & E & _); discriminate E.
  - destruct (startswith u (lit "image/")) eqn:Eu.
    + split.
      * intros [= <-]. exists [], ts. repeat split; [|exact Eu]. intros ? [].
      * intros (before & after & E & Hb & Ht). destruct before as [|b before].
        -- now injection E as ->.
        -- injection E as <- _. specialize (Hb u (or_introl eq_refl)). congruence.
    + rewrite IH. split.
      * intros (before & after & -> & Hb & Ht). exists (u :: before), after.
        repeat split; [|exact Ht]. intros v [<-|Hv]; [exact Eu | now apply Hb].
      * intros (before & after & E & Hb & Ht). destruct before as [|b before].
        -- injection E as -> _. congruence.
        -- injection E as _ ->. exists before, after. repeat split; [|exact Ht].
           intros v Hv. apply Hb. now right.
Qed.

(** ** Duplicates do not matter *)

Lemma contains_fromkeys_acc (x : str) (seen xs : list str) :
  contains x (fromkeys_acc seen xs) = negb (contains x seen) && contains x xs.
Proof.
  revert seen. induction xs as [|y ys IH]; intros seen; cbn [fromkeys_acc contains].
  - now rewrite andb_false_r.
  - destruct (contains y seen) eqn:Ey.
    + rewrite IH. destruct (str_eqb y x) eqn:Exy; [|reflexivity].
      apply str_eqb_eq in Exy. subst y. now rewrite Ey.
    + cbn [contains]. rewrite IH. cbn [contains].
      destruct (str_eqb y x) eqn:Exy.
      * apply str_eqb_eq in Exy. subst y. now rewrite Ey.
      * reflexivity.
Qed.

Lemma contains_fromkeys (x : str) (xs : list str) :
  contains x (fromkeys xs) = contains x xs.
Proof. unfold fromkeys. now rewrite contains_fromkeys_acc. Qed.

Lemma first_image_fromkeys_acc (seen xs : list str) :
  no_image seen -> first_image (fromkeys_acc seen xs) = first_image xs.
Proof.
  revert seen. induction xs as [|y ys IH]; intros seen Hs; [reflexivity|].
  cbn [fromkeys_acc first_image]. destruct (contains y seen) eqn:Ey.
  - apply contains_In in Ey. rewrite (Hs y Ey). now apply IH.
  - cbn [first_image]. destruct (startswith y (lit "image/")) eqn:E; [reflexivity|].
    apply IH. intros u [<-|Hu]; [exact E | now apply Hs].
Qed.

Lemma first_image_fromkeys (xs : list str) :
  first_image (fromkeys xs) = first_image xs.
Proof. apply first_image_fromkeys_acc. intros ? []. Qed.

(** Both selectors are the same function of the advertised targets. *)
Lemma pick_wayland_mime_of_x11 (targets : list str) :
  pick_wayland_mime_of targets = pick_x11_mime_of targets.
Proof.
  unfold pick_wayland_mime_of, pick_x11_mime_of.
  now rewrite !contains_fromkeys, first_image_fromkeys.
Qed.

(** ** The selector follows the priority order *)

Lemma pick_x11_mime_of_selects (targets : list str) :
  selects targets (pick_x11_mime_of targets).
Proof.
  unfold pick_x11_mime_of.
  destruct (contains (lit "text/uri-list") targets) eqn:E1;
    [apply contains_In in E1; now constructor | apply contains_not_In in E1].
  destruct (contains (lit "text/html") targets) eqn:E2;
    [apply contains_In in E2; now constructor | apply contains_not_In in E2].
  destruct (first_image targets) as [t|] eqn:E3.
  { apply first_image_Some in E3 as (before & after & E & Hb & Ht).
    now apply (sel_image targets before t after). }
  apply first_image_None in E3.
  destruct (contains (lit "text/plain;charset=utf-8") targets) eqn:E4;
    [apply contains_In in E4; now constructor | apply contains_not_In in E4].
  destruct (contains (lit "text/plain") targets) eqn:E5;
    [apply contains_In in E5; now constructor | apply contains_not_In in E5].
  destruct (contains (lit "UTF8_STRING") targets) eqn:E6;
    [apply contains_In in E6; now constructor | apply contains_not_In in E6].
  now apply sel_default.
Qed.

Lemma selects_pick_x11_mime_of (targets : list str) (m : str) :
  selects targets m -> pick_x11_mime_of targets = m.
Proof.
  intros H. unfold pick_x11_mime_of.
  destruct H;
    repeat match goal with
           | H : In _ _ |- _ => apply contains_In in H; rewrite H
           | H : ~ In _ _ |- _ => apply contains_not_In in H; rewrite H
           | H : no_image targets |- _ => apply first_image_None in H; rewrite H
           end; try reflexivity.
  assert (E : first_image targets = Some t)
    by (apply first_image_Some; eauto).
  now rewrite E.
Qed.

Lemma list_wayland_targets_advertised wd :
  exists wd',
    list_wayland_targets wd
    = (Ok (advertised (oracle wd (clock wd) WlPasteList)), wd').
Proof.
  unfold list_wayland_targets, try_except, bind, subprocess_run, ret, advertised.
  destruct (oracle wd (clock wd) WlPasteList) as [rc out|]; [|eauto].
  cbn [andb]. destruct (rc =? 0); cbn [negb snd]; eauto.
Qed.

Lemma list_x11_targets_advertised wd :
  exists wd',
    list_x11_targets wd
    = (Ok (advertised (oracle wd (clock wd) XclipTargets)), wd').
Proof.
  unfold list_x11_targets, try_except, bind, subprocess_run, ret, advertised.
  destruct (oracle wd (clock wd) XclipTargets) as [rc out|]; [|eauto].
  cbn [andb]. destruct (rc =? 0); cbn [negb snd]; eauto.
Qed.

(** C5.  For every list of advertised targets, the Wayland and the X11
    selector both return exactly the MIME the priority order designates:
    text/uri-list, then text/html, then the first image/ entry, then
    text/plain;charset=utf-8, then text/plain, then UTF8_STRING, and
    text/plain;charset=utf-8 when nothing matches (so for the empty list).
    That MIME is unique.  In every world [pick_wayland_mime] and
    [pick_x11_mime] return normally, and what they return is the MIME so
    designated among the targets their own backend advertises in its answer
    to the listing call. *)
Theorem mime_selector_priority (targets : list str) (m : str) (wd : World) :
  (selects targets m <-> pick_wayland_mime_of targets = m)
  /\ (selects targets m <-> pick_x11_mime_of targets = m)
  /\ pick_wayland_mime_of [] = lit "text/plain;charset=utf-8"
  /\ pick_x11_mime_of [] = lit "text/plain;charset=utf-8"
  /\ (exists r wd',
        pick_wayland_mime wd = (Ok r, wd')
        /\ list_wayland_targets wd
           = (Ok (advertised (oracle wd (clock wd) WlPasteList)), wd')
        /\ selects (advertised (oracle wd (clock wd) WlPasteList)) r)
  /\ (exists r wd',
        pick_x11_mime wd = (Ok r, wd')
        /\ list_x11_targets wd
           = (Ok (advertised (oracle wd (clock wd) XclipTargets)), wd')
        /\ selects (advertised (oracle wd (clock wd) XclipTargets)) r).
Proof.
  assert (S : forall ts r, selects ts r <-> pick_x11_mime_of ts = r).
  { intros ts r. split; [apply selects_pick_x11_mime_of|].
    intros <-. apply pick_x11_mime_of_selects. }
  split; [rewrite pick_wayland_mime_of_x11; apply S|].
  split; [apply S|]. split; [reflexivity|]. split; [reflexivity|]. split.
  - destruct (list_wayland_targets_advertised wd) as (wd' & E).
    exists (pick_wayland_mime_of (advertised (oracle wd (clock wd) WlPasteList))), wd'.
    split; [unfold pick_wayland_mime, bind; now rewrite E|]. split; [exact E|].
    rewrite pick_wayland_mime_of_x11. apply pick_x11_mime_of_selects.
  - destruct (list_x11_targets_advertised wd) as (wd' & E).
    exists (pick_x11_mime_of (advertised (oracle wd (clock wd) XclipTargets))), wd'.
    split; [unfold pick_x11_mime, bind; now rewrite E|]. split; [exact E|].
    apply pick_x11_mime_of_selects.
Qed.

End SelectorFacts.

(* ------------------------------------------------------------------ *)
(** * The comparison key *)

Module KeyFacts.
Import Py PyFacts Clipsync NormFacts Scenario.

(** C6, as stated, fails: the key of [b"a\x00\n"] under text/plain is
    [b"a\x00"] (the NUL is not trailing when NULs are stripped, and the
    line feed is stripped after it), and the key of that key is [b"a"]. *)
Lemma normalize_not_idempotent :
  is_text_mime text_plain = true
  /\ norm_data a_nul_lf text_plain = [Byte.x61; Byte.x00]
  /\ norm_data (norm_data a_nul_lf text_plain) text_plain = [Byte.x61]
  /\ norm_data (norm_data a_nul_lf text_plain) text_plain
     <> norm_data a_nul_lf text_plain.
Proof. vm_compute. repeat split; discriminate. Qed.

(** C6, amended.  For every byte sequence and every textual MIME,
    normalising the key once more gives the same key exactly when the key
    does not end with a NUL byte. *)
Theorem normalize_idempotent_iff (x : bytes) (mime : str) :
  is_text_mime mime = true ->
  norm_data (norm_data x mime) mime = norm_data x mime
  <-> ends_with_nul (norm_data x mime) = false.
Proof.
  intros H. unfold norm_data. rewrite H. apply normalize_text_twice.
Qed.

Lemma normalize_idempotent_iff_witness :
  norm_data (norm_data (blit "hello") text_plain) text_plain
  = norm_data (blit "hello") text_plain
  <-> ends_with_nul (norm_data (blit "hello") text_plain) = false.
Proof.
  apply (normalize_idempotent_iff (blit "hello") text_plain). reflexivity.
Defined.

End KeyFacts.

(* ------------------------------------------------------------------ *)
(** * The change-detection and propagation engine *)

Module EngineFacts.
Import Py PyFacts Clipsync RunFacts Scenario Notions.

Lemma bytes_eq_dec (a b : bytes) : {a = b} + {a <> b}.
Proof. apply list_eq_dec, Byte.byte_eq_dec. Qed.

(** ** What an outcome can write and remember *)

Lemma outcome_writes st w x st' evs :
  outcome st w x st' evs ->
  writes_in evs = []
  \/ writes_in evs = [(X11, fst w, snd w)]
  \/ exists mime, writes_in evs = [(Wayland, fst x, mime)].
Proof.
  destruct 1; cbn [writes_in write_of];
    rewrite ?after_write_writes by assumption; eauto.
Qed.

Lemma outcome_state_unique st w x s1 e1 s2 e2 :
  outcome st w x s1 e1 -> outcome st w x s2 e2 -> s1 = s2.
Proof.
  destruct 1; destruct 1; try reflexivity; try contradiction; congruence.
Qed.

Lemma outcome_conflict st w x st' evs m :
  outcome st w x st' evs -> In (Printed (MsgConflict m)) evs ->
  key w = key x
  /\ (writes_in evs = [] \/ writes_in evs = [(X11, fst w, snd w)]).
Proof.
  assert (K : forall tb, after_write tb -> ~ In (Printed (MsgConflict m)) tb)
    by (intros tb T; now apply after_write_conflict).
  destruct 1 as [tb|?|tb|?|tb A B C G T| A B C G |?]; cbn [In];
    try (intros [Q|[Q|Q]]; try discriminate Q; now apply K in Q);
    try (intros []; fail).
  - intros _. split.
    + destruct (bytes_eq_dec (key w) (key x)) as [|N]; [assumption|].
      exfalso. apply A. split; [apply C | exact N].
    + right. cbn [writes_in write_of]. now rewrite after_write_writes.
  - intros _. split; [|now left].
    destruct (bytes_eq_dec (key w) (key x)) as [|N]; [assumption|].
    exfalso. apply A. split; [apply C | exact N].
Qed.


Lemma outcome_guards_echo (a : Side) st w x st' evs :
  outcome st w x st' evs ->
  fst (snapshot_of (w, x) (other a)) <> last_data st (other a) ->
  fst (snapshot_of (w, x) a) = last_data st a ->
  last_data st a = fst (snapshot_of (w, x) (other a)) ->
  writes_to a evs = [].
Proof.
  destruct a; cbn [other snapshot_of last_data fst snd];
    intros O Hb Ha He; destruct O;
    unfold rule_A_applies, rule_B_applies, rule_C_applies in *;
    try reflexivity; exfalso; intuition congruence.
Qed.

Lemma outcome_raw st w x st' evs :
  outcome st w x st' evs ->
  forall side,
    last_snapshot st' side = last_snapshot st side
    \/ last_snapshot st' side = w
    \/ last_snapshot st' side = x.
Proof.
  destruct st as [lwd lwm lxd lxm], w as [wd_ wm], x as [xd xm].
  destruct 1; intros []; cbn; auto.
  all: try (destruct wd_; cbn; auto; fail).
  all: try (destruct xd; cbn; auto; fail).
Qed.

(** ** The reading phase *)

Lemma read_snapshots_no_html wd w x wd1 wd2 :
  get_wayland_clipboard wd = (Ok w, wd1) ->
  get_x11_clipboard wd1 = (Ok x, wd2) ->
  str_eqb (snd w) text_html = false ->
  str_eqb (snd x) text_html = false ->
  read_snapshots wd = (Ok (w, x), wd2).
Proof.
  intros Ew Ex Hw Hx. destruct w as [wd_ wm], x as [xd xm].
  unfold read_snapshots, bind. rewrite Ew, Ex.
  unfold strip_html_wayland, strip_html_x11. cbn [snd] in Hw, Hx.
  fold text_html. rewrite Hw, Hx. reflexivity.
Qed.

(** A read that raises gives the empty snapshot, and the function
    returns normally. *)
Lemma get_wayland_clipboard_failed wd mime wd1 :
  pick_wayland_mime wd = (Ok mime, wd1) ->
  oracle wd1 (clock wd1) (WlPaste mime) = Failed ->
  exists wd2, get_wayland_clipboard wd = (Ok ([], []), wd2).
Proof.
  intros Ep Ef. unfold get_wayland_clipboard, bind at 1. rewrite Ep.
  unfold try_except, bind, subprocess_run. rewrite Ef.
  unfold print, emit, ret. eauto.
Qed.

Lemma get_x11_clipboard_failed wd mime wd1 :
  pick_x11_mime wd = (Ok mime, wd1) ->
  oracle wd1 (clock wd1) (XclipOut mime) = Failed ->
  exists wd2, get_x11_clipboard wd = (Ok ([], []), wd2).
Proof.
  intros Ep Ef. unfold get_x11_clipboard, bind at 1. rewrite Ep.
  unfold try_except, bind, subprocess_run. rewrite Ef.
  unfold print, emit, ret. eauto.
Qed.

(** Where a snapshot comes from: the read raised, or its MIME is the one
    selected from the targets listed at that moment and its data is the
    answer the backend gave then. *)
Lemma get_wayland_clipboard_fresh wd w wd' :
  get_wayland_clipboard wd = (Ok w, wd') ->
  w = ([], [])
  \/ exists ts wd1 rc,
       list_wayland_targets wd = (Ok ts, wd1)
       /\ snd w = pick_wayland_mime_of ts
       /\ oracle wd1 (clock wd1) (WlPaste (snd w)) = Exited rc (fst w).
Proof.
  unfold get_wayland_clipboard, pick_wayland_mime, bind at 1 2.
  destruct (list_wayland_targets_total wd) as (ts & wd1 & E). rewrite E.
  unfold ret at 1. unfold try_except, bind, subprocess_run, print, emit, ret.
  destruct (oracle wd1 (clock wd1) (WlPaste (pick_wayland_mime_of ts)))
    as [rc out|] eqn:Eo; cbn [andb]; intros [= <- <-]; [right | now left].
  exists ts, wd1, rc. auto.
Qed.

Lemma get_x11_clipboard_fresh wd x wd' :
  get_x11_clipboard wd = (Ok x, wd') ->
  x = ([], [])
  \/ exists ts wd1 rc,
       list_x11_targets wd = (Ok ts, wd1)
       /\ snd x = pick_x11_mime_of ts
       /\ oracle wd1 (clock wd1) (XclipOut (snd x)) = Exited rc (fst x).
Proof.
  unfold get_x11_clipboard, pick_x11_mime, bind at 1 2.
  destruct (list_x11_targets_total wd) as (ts & wd1 & E). rewrite E.
  unfold ret at 1. unfold try_except, bind, subprocess_run, print, emit, ret.
  destruct (oracle wd1 (clock wd1) (XclipOut (pick_x11_mime_of ts)))
    as [rc out|] eqn:Eo; cbn [andb]; intros [= <- <-]; [right | now left].
  exists ts, wd1, rc. auto.
Qed.

(** ** Properties of one pass of the loop *)

(** One pass, with the events of its two phases. *)
Lemma cycle_phases st wd w x wd1 :
  read_snapshots wd = (Ok (w, x), wd1) ->
  exists st' wd' e1 e2,
    cycle st wd = (Ok st', wd')
    /\ grows wd wd1 e1 /\ forallb silent e1 = true
    /\ grows wd1 wd' e2 /\ outcome st w x st' e2.
Proof.
  intros R. destruct (read_snapshots_quiet _ _ _ R) as (e1 & G1 & S1).
  destruct (apply_rules_outcome st w x wd1) as (st' & wd' & e2 & E & G2 & O).
  exists st', wd', e1, e2. unfold cycle, bind. rewrite R. auto.
Qed.

(** A pass that writes leaves both sides remembered alike. *)
Lemma outcome_write_syncs st w x st' evs :
  outcome st w x st' evs -> writes_in evs <> [] ->
  last_w_data st' = last_x_data st'.
Proof. destruct 1; cbn; congruence. Qed.

Lemma refresh_same_data st w x :
  fst w = last_w_data st -> fst x = last_x_data st ->
  last_w_data (refresh st w x) = last_w_data st
  /\ last_x_data (refresh st w x) = last_x_data st.
Proof.
  intros Hw Hx. unfold refresh. cbn [last_w_data last_x_data].
  destruct (fst w), (fst x); auto.
Qed.

(** C1, as stated, fails.  The first pass reads HTML the parser rejects,
    reads Wayland again and propagates the HTML [<b>x</b>] to X11 as it is;
    both sides remember it under text/html.  After the wake-up both reads
    return exactly what is remembered, bytes and MIME; this time the parser
    accepts it, both snapshots become [x], and the conflict branch writes [x]
    to X11. *)
Lemma stability_fails_on_reread_html :
  fst (cycle initial_state html_kept_then_parsed) = Ok html_kept_state
  /\ writes_in (events_since html_kept_then_parsed
                  (snd (cycle initial_state html_kept_then_parsed)))
     = [(X11, blit "<b>x</b>", text_html)]
  /\ fst (wait_for_change (snd (cycle initial_state html_kept_then_parsed))) = Ok tt
  /\ fst (get_wayland_clipboard
            (snd (wait_for_change (snd (cycle initial_state html_kept_then_parsed)))))
     = Ok (last_w_data html_kept_state, last_w_mime html_kept_state)
  /\ fst (get_x11_clipboard
            (snd (get_wayland_clipboard
                    (snd (wait_for_change
                            (snd (cycle initial_state html_kept_then_parsed)))))))
     = Ok (last_x_data html_kept_state, last_x_mime html_kept_state)
  /\ writes_in (events_since
                  (snd (wait_for_change (snd (cycle initial_state html_kept_then_parsed))))
                  (snd (cycle html_kept_state
                          (snd (wait_for_change
                                  (snd (cycle initial_state html_kept_then_parsed)))))))
     = [(X11, blit "x", text_plain_utf8)].
Proof. vm_compute. repeat split. Qed.

(** C1, amended.  Take a state reached by a pass that propagated (it
    wrote to a clipboard): both sides are remembered with the same data.
    Take the next turn of the loop: the wake-up, then the pass.  If the
    snapshots that pass compares (each read after its HTML step) carry the
    raw bytes just remembered for their side, the turn writes to neither
    clipboard and leaves the state of Rule D: each side with non-empty data
    is remembered as read, so both sides keep the propagated data.  This is
    so in particular when both reads return the remembered bytes under a
    MIME other than text/html. *)
Theorem stability_after_propagation st0 wd0 st1 wd1 woken :
  cycle st0 wd0 = (Ok st1, wd1) ->
  writes_in (events_since wd0 wd1) <> [] ->
  wait_for_change wd1 = (Ok tt, woken) ->
  last_w_data st1 = last_x_data st1
  /\ (forall w x wd2,
        read_snapshots woken = (Ok (w, x), wd2) ->
        fst w = last_w_data st1 ->
        fst x = last_x_data st1 ->
        exists wd3,
          cycle st1 woken = (Ok (refresh st1 w x), wd3)
          /\ loop 1 st1 wd1 = (Ok (refresh st1 w x), wd3)
          /\ writes_in (events_since wd1 wd3) = []
          /\ last_w_data (refresh st1 w x) = last_w_data st1
          /\ last_x_data (refresh st1 w x) = last_x_data st1)
  /\ (forall w x wa wd2,
        get_wayland_clipboard woken = (Ok w, wa) ->
        get_x11_clipboard wa = (Ok x, wd2) ->
        snd w <> text_html ->
        snd x <> text_html ->
        fst w = last_w_data st1 ->
        fst x = last_x_data st1 ->
        exists wd3,
          cycle st1 woken = (Ok (refresh st1 w x), wd3)
          /\ loop 1 st1 wd1 = (Ok (refresh st1 w x), wd3)
          /\ writes_in (events_since wd1 wd3) = []
          /\ last_w_data (refresh st1 w x) = last_w_data st1
          /\ last_x_data (refresh st1 w x) = last_x_data st1).
Proof.
  intros E0 W0 Ew.
  assert (S : forall w x wd2,
             read_snapshots woken = (Ok (w, x), wd2) ->
             fst w = last_w_data st1 ->
             fst x = last_x_data st1 ->
             exists wd3,
               cycle st1 woken = (Ok (refresh st1 w x), wd3)
               /\ loop 1 st1 wd1 = (Ok (refresh st1 w x), wd3)
               /\ writes_in (events_since wd1 wd3) = []
               /\ last_w_data (refresh st1 w x) = last_w_data st1
               /\ last_x_data (refresh st1 w x) = last_x_data st1).
  { intros w x wd2 R Hw Hx.
    destruct (cycle_phases st1 woken w x wd2 R)
      as (st' & wd3 & e1 & e2 & E & G1 & S1 & G2 & O).
    assert (D : st' = refresh st1 w x /\ e2 = []).
    { destruct O; unfold rule_A_applies, rule_B_applies, rule_C_applies in *;
        try (exfalso; intuition congruence). auto. }
    destruct D as [-> ->]. exists wd3.
    split; [exact E|]. split; [|split].
    - cbn [loop]. unfold bind. rewrite Ew, E. reflexivity.
    - assert (Gw : grows wd1 woken [Ran Clipnotify]).
      { unfold wait_for_change in Ew.
        destruct (oracle wd1 (clock wd1) Clipnotify); [|discriminate].
        injection Ew as <-. apply grows_run. }
      rewrite (events_since_grows _ _ _
                 (grows_trans _ _ _ _ _ Gw (grows_trans _ _ _ _ _ G1 G2))).
      rewrite !writes_in_app, (writes_in_silent _ S1). reflexivity.
    - now apply refresh_same_data. }
  split; [|split].
  - destruct (read_snapshots_total wd0) as ([w0 x0] & wda & R0).
    destruct (cycle_outcome st0 wd0 w0 x0 wda R0) as (s & wdb & evs & Eb & Ob & Wb & _).
    rewrite E0 in Eb. injection Eb as <- <-. rewrite Wb in W0.
    exact (outcome_write_syncs _ _ _ _ _ Ob W0).
  - exact S.
  - intros w x wa wd2 Rw Rx Mw Mx. apply (S w x wd2).
    apply (read_snapshots_no_html _ _ _ _ _ Rw Rx).
    + destruct (str_eqb (snd w) text_html) eqn:Q; [|reflexivity].
      apply str_eqb_eq in Q. contradiction.
    + destruct (str_eqb (snd x) text_html) eqn:Q; [|reflexivity].
      apply str_eqb_eq in Q. contradiction.
Qed.

Lemma stability_after_propagation_witness :
  last_w_data (mkState (blit "one") text_plain (blit "one") text_plain)
  = last_x_data (mkState (blit "one") text_plain (blit "one") text_plain)
  /\ exists wd3,
       cycle (mkState (blit "one") text_plain (blit "one") text_plain)
             (snd (wait_for_change (snd (cycle initial_state one_then_synced))))
       = (Ok (mkState (blit "one") text_plain (blit "one") text_plain), wd3)
       /\ loop 1 (mkState (blit "one") text_plain (blit "one") text_plain)
               (snd (cycle initial_state one_then_synced))
          = (Ok (mkState (blit "one") text_plain (blit "one") text_plain), wd3)
       /\ writes_in (events_since (snd (cycle initial_state one_then_synced)) wd3) = [].
Proof.
  destruct (stability_after_propagation
              initial_state one_then_synced
              (mkState (blit "one") text_plain (blit "one") text_plain)
              (snd (cycle initial_state one_then_synced))
              (snd (wait_for_change (snd (cycle initial_state one_then_synced)))))
    as (Same & _ & Raw).
  - vm_compute. reflexivity.
  - vm_compute. discriminate.
  - vm_compute. reflexivity.
  - split; [exact Same|].
    destruct (Raw (blit "one", text_plain) (blit "one", text_plain)
                  (snd (get_wayland_clipboard
                          (snd (wait_for_change
                                  (snd (cycle initial_state one_then_synced))))))
                  (snd (read_snapshots
                          (snd (wait_for_change
                                  (snd (cycle initial_state one_then_synced)))))))
      as (wd3 & C & L & W & _).
    + vm_compute. reflexivity.
    + vm_compute. reflexivity.
    + vm_compute. discriminate.
    + vm_compute. discriminate.
    + reflexivity.
    + reflexivity.
    + exists wd3. split; [exact C|]. split; [exact L | exact W].
Defined.

(** C2.  Let [a] be either side and [b] the other one.  In a pass where
    only [b]'s raw data differs from what is remembered for [b], if the
    raw data remembered for [a] equals [b]'s current raw data, nothing is
    written to [a]. *)
Theorem no_echo (a : Side) st wd wx wd1 r wd' :
  read_snapshots wd = (Ok wx, wd1) ->
  fst (snapshot_of wx (other a)) <> last_data st (other a) ->
  fst (snapshot_of wx a) = last_data st a ->
  last_data st a = fst (snapshot_of wx (other a)) ->
  cycle st wd = (r, wd') ->
  writes_to a (events_since wd wd') = [].
Proof.
  intros R Hb Ha He C. destruct wx as [w x].
  destruct (cycle_outcome st wd w x wd1 R) as (st' & wd3 & evs & E & O & W & _).
  rewrite E in C. injection C as <- <-.
  unfold writes_to. rewrite W.
  exact (outcome_guards_echo a st w x st' evs O Hb Ha He).
Qed.


Lemma no_echo_witness :
  writes_to Wayland (events_since echo_world (snd (cycle echo_state echo_world))) = [].
Proof.
  apply (no_echo Wayland echo_state echo_world
           ((a_lf, lit "image/png"), (a_lf, text_plain))
           (snd (read_snapshots echo_world))
           (fst (cycle echo_state echo_world))
           (snd (cycle echo_state echo_world))).
  - vm_compute. reflexivity.
  - vm_compute. discriminate.
  - reflexivity.
  - reflexivity.
  - vm_compute. reflexivity.
Defined.

(** C3, at the failing input.  Both sides remember [b"hello"], X11 still
    holds it and the Wayland read times out: the Wayland snapshot is
    [(b'', '')] and the pass returns normally, but the empty snapshot alone
    makes Rule A write empty data to X11 and both sides are then remembered
    as empty. *)
Theorem read_failure_overwrites_x11 :
  fst (read_snapshots wayland_read_times_out)
  = Ok (([], []), (blit "hello", text_plain))
  /\ fst (cycle hello_state wayland_read_times_out) = Ok (mkState [] [] [] [])
  /\ writes_in (events_since wayland_read_times_out
                  (snd (cycle hello_state wayland_read_times_out)))
     = [(X11, [], [])].
Proof. vm_compute. repeat split. Qed.

(** C4.  From a state whose remembered data differ from both new values,
    when the Wayland read returns [(b"one", "text/plain")] and the X11 read
    [(b"two", "text/plain")], the pass writes [b"one"] to X11 under
    text/plain, makes no other write, and both sides are remembered as
    [(b"one", "text/plain")]. *)
Theorem conflict_one_two st wd wd1 wd2 :
  get_wayland_clipboard wd = (Ok (blit "one", text_plain), wd1) ->
  get_x11_clipboard wd1 = (Ok (blit "two", text_plain), wd2) ->
  last_w_data st <> blit "one" -> last_w_data st <> blit "two" ->
  last_x_data st <> blit "one" -> last_x_data st <> blit "two" ->
  exists wd3,
    cycle st wd
    = (Ok (mkState (blit "one") text_plain (blit "one") text_plain), wd3)
    /\ writes_in (events_since wd wd3) = [(X11, blit "one", text_plain)].
Proof.
  intros Ew Ex Hw1 _ Hx1 _.
  pose proof (read_snapshots_no_html _ _ _ _ _ Ew Ex eq_refl eq_refl) as R.
  destruct (cycle_outcome st wd _ _ wd2 R) as (st' & wd3 & evs & E & O & W & _).
  exists wd3. rewrite W, E.
  assert (K : key (blit "one", text_plain) <> key (blit "two", text_plain))
    by (vm_compute; discriminate).
  destruct O; unfold rule_A_applies, rule_B_applies, rule_C_applies in *;
    cbn [fst snd] in *;
    try (exfalso; intuition congruence).
  split; [reflexivity|].
  cbn [writes_in write_of fst snd]. now rewrite after_write_writes.
Qed.

Lemma conflict_one_two_witness :
  exists wd3,
    cycle initial_state one_then_synced
    = (Ok (mkState (blit "one") text_plain (blit "one") text_plain), wd3)
    /\ writes_in (events_since one_then_synced wd3) = [(X11, blit "one", text_plain)].
Proof.
  apply (conflict_one_two initial_state one_then_synced
           (snd (get_wayland_clipboard one_then_synced))
           (snd (read_snapshots one_then_synced))).
  - vm_compute. reflexivity.
  - vm_compute. reflexivity.
  - discriminate.
  - discriminate.
  - discriminate.
  - discriminate.
Defined.


(** ** The HTML step *)

Lemma strip_html_wayland_failure data wd :
  html_parser wd (decode_utf8 data) = None ->
  strip_html_wayland (data, text_html) wd
  = get_wayland_clipboard (printed MsgStripErrorWayland wd).
Proof.
  intros H. unfold strip_html_wayland. fold text_html.
  replace (str_eqb text_html text_html) with true by reflexivity.
  unfold try_except, bind at 1, soup_get_text. rewrite H. reflexivity.
Qed.

Lemma strip_html_x11_failure data wd :
  html_parser wd (decode_utf8 data) = None ->
  strip_html_x11 (data, text_html) wd
  = get_x11_clipboard (printed MsgStripErrorX11 wd).
Proof.
  intros H. unfold strip_html_x11. fold text_html.
  replace (str_eqb text_html text_html) with true by reflexivity.
  unfold try_except, bind at 1, soup_get_text. rewrite H. reflexivity.
Qed.

Lemma grows_parser wd wd' evs : grows wd wd' evs -> html_parser wd' = html_parser wd.
Proof. now intros (_ & _ & P). Qed.

(** C7, as stated, fails.  Wayland offers text/html, the parser raises,
    and the second read of Wayland times out: the pass goes on with the
    Wayland snapshot [(b'', '')], whose MIME is not text/html. *)
Lemma html_retry_loses_mime :
  fst (get_wayland_clipboard html_then_timeout) = Ok (blit "<b>x</b>", text_html)
  /\ html_parser html_then_timeout (decode_utf8 (blit "<b>x</b>")) = None
  /\ fst (read_snapshots html_then_timeout) = Ok (([], []), ([], text_plain_utf8))
  /\ fst (cycle initial_state html_then_timeout) = Ok initial_state.
Proof. vm_compute. repeat split. Qed.

(** C7, amended.  When a side's snapshot has MIME text/html and the
    parser raises, the pass does not raise: after the error message that
    side is read again from its backend by a fresh call of its read
    function, and the pass goes on with exactly the snapshot this second
    read returns, with no second reduction: the empty snapshot if that read
    raised, otherwise the MIME selected from the targets listed then
    (text/html only if it is selected again) and the data the backend
    answered then. *)
Theorem html_reduction_failure_recovery st wd w x wd1 wd2 :
  get_wayland_clipboard wd = (Ok w, wd1) ->
  get_x11_clipboard wd1 = (Ok x, wd2) ->
  (exists st' wd', cycle st wd = (Ok st', wd'))
  /\ (snd w = text_html ->
      html_parser wd (decode_utf8 (fst w)) = None ->
      exists w' wd3,
        get_wayland_clipboard (printed MsgStripErrorWayland wd2) = (Ok w', wd3)
        /\ cycle st wd = (x' <- strip_html_x11 x ;; apply_rules st w' x') wd3
        /\ (w' = ([], [])
            \/ exists ts wdl rc,
                 list_wayland_targets (printed MsgStripErrorWayland wd2)
                 = (Ok ts, wdl)
                 /\ snd w' = pick_wayland_mime_of ts
                 /\ oracle wdl (clock wdl) (WlPaste (snd w')) = Exited rc (fst w')))
  /\ (snd x = text_html ->
      html_parser wd (decode_utf8 (fst x)) = None ->
      forall w' wd3,
        strip_html_wayland w wd2 = (Ok w', wd3) ->
        exists x' wd4,
          get_x11_clipboard (printed MsgStripErrorX11 wd3) = (Ok x', wd4)
          /\ cycle st wd = apply_rules st w' x' wd4
          /\ (x' = ([], [])
              \/ exists ts wdl rc,
                   list_x11_targets (printed MsgStripErrorX11 wd3) = (Ok ts, wdl)
                   /\ snd x' = pick_x11_mime_of ts
                   /\ oracle wdl (clock wdl) (XclipOut (snd x')) = Exited rc (fst x'))).
Proof.
  intros Ew Ex.
  destruct (get_wayland_clipboard_quiet _ _ _ Ew) as (e1 & G1 & _).
  destruct (get_x11_clipboard_quiet _ _ _ Ex) as (e2 & G2 & _).
  split; [apply cycle_total|]. split.
  - intros Hm Hp. destruct w as [d m]. cbn [fst snd] in Hm, Hp. subst m.
    rewrite <- (grows_parser _ _ _ G1), <- (grows_parser _ _ _ G2) in Hp.
    destruct (get_wayland_clipboard_total (printed MsgStripErrorWayland wd2))
      as (w' & wd3 & E).
    exists w', wd3. split; [exact E|].
    split; [|exact (get_wayland_clipboard_fresh _ _ _ E)].
    unfold cycle, read_snapshots, bind, ret.
    rewrite Ew; cbv beta iota. rewrite Ex; cbv beta iota.
    rewrite (strip_html_wayland_failure _ _ Hp), E; cbv beta iota.
    destruct (strip_html_x11 x wd3) as [[x'|] wd4]; reflexivity.
  - intros Hm Hp w' wd3 Es. destruct x as [d m]. cbn [fst snd] in Hm, Hp. subst m.
    destruct (strip_html_wayland_quiet _ _ _ _ Es) as (e3 & G3 & _).
    rewrite <- (grows_parser _ _ _ G1), <- (grows_parser _ _ _ G2),
      <- (grows_parser _ _ _ G3) in Hp.
    destruct (get_x11_clipboard_total (printed MsgStripErrorX11 wd3))
      as (x' & wd4 & E).
    exists x', wd4. split; [exact E|].
    split; [|exact (get_x11_clipboard_fresh _ _ _ E)].
    unfold cycle, read_snapshots, bind, ret.
    rewrite Ew; cbv beta iota. rewrite Ex; cbv beta iota.
    rewrite Es; cbv beta iota.
    rewrite (strip_html_x11_failure _ _ Hp), E. reflexivity.
Qed.


Lemma html_reduction_failure_recovery_witness :
  (exists st' wd', cycle initial_state html_then_timeout = (Ok st', wd'))
  /\ (snd (blit "<b>x</b>", text_html) = text_html ->
      html_parser html_then_timeout
        (decode_utf8 (fst (blit "<b>x</b>", text_html))) = None ->
      exists w' wd3,
        get_wayland_clipboard
          (printed MsgStripErrorWayland
             (snd (get_x11_clipboard (snd (get_wayland_clipboard html_then_timeout)))))
        = (Ok w', wd3)
        /\ cycle initial_state html_then_timeout
           = (x' <- strip_html_x11 ([], text_plain_utf8) ;;
              apply_rules initial_state w' x') wd3
        /\ (w' = ([], [])
            \/ exists ts wdl rc,
                 list_wayland_targets
                   (printed MsgStripErrorWayland
                      (snd (get_x11_clipboard
                              (snd (get_wayland_clipboard html_then_timeout)))))
                 = (Ok ts, wdl)
                 /\ snd w' = pick_wayland_mime_of ts
                 /\ oracle wdl (clock wdl) (WlPaste (snd w')) = Exited rc (fst w')))
  /\ (snd (@nil byte, text_plain_utf8) = text_html ->
      html_parser html_then_timeout
        (decode_utf8 (fst (@nil byte, text_plain_utf8))) = None ->
      forall w' wd3,
        strip_html_wayland (blit "<b>x</b>", text_html)
          (snd (get_x11_clipboard (snd (get_wayland_clipboard html_then_timeout))))
        = (Ok w', wd3) ->
        exists x' wd4,
          get_x11_clipboard (printed MsgStripErrorX11 wd3) = (Ok x', wd4)
          /\ cycle initial_state html_then_timeout
             = apply_rules initial_state w' x' wd4
          /\ (x' = ([], [])
              \/ exists ts wdl rc,
                   list_x11_targets (printed MsgStripErrorX11 wd3) = (Ok ts, wdl)
                   /\ snd x' = pick_x11_mime_of ts
                   /\ oracle wdl (clock wdl) (XclipOut (snd x')) = Exited rc (fst x'))).
Proof.
  apply (html_reduction_failure_recovery initial_state html_then_timeout
           (blit "<b>x</b>", text_html) ([], text_plain_utf8)
           (snd (get_wayland_clipboard html_then_timeout))
           (snd (get_x11_clipboard (snd (get_wayland_clipboard html_then_timeout))))).
  - vm_compute. reflexivity.
  - vm_compute. reflexivity.
Defined.

(** ** Writes and remembered state *)

(** A failed write to X11: the call is made, a traceback is printed, and
    the function returns. *)
Lemma set_x11_clipboard_failed data mime wd :
  checked_call_fails (oracle wd (clock wd) (XclipIn mime data)) = true ->
  exists wd',
    set_x11_clipboard data mime wd = (Ok tt, wd')
    /\ grows wd wd' [Ran (XclipIn mime data); Printed MsgTraceback].
Proof.
  intros F.
  unfold set_x11_clipboard, try_except, bind, subprocess_run, ret, print, emit.
  destruct (oracle wd (clock wd) (XclipIn mime data)) as [rc out|]; cbn in F.
  1: rewrite F; cbn [andb].
  all: eexists; split; [reflexivity|].
  all: unfold grows; cbn [trace oracle html_parser]; rewrite <- ?app_assoc; auto.
Qed.

Lemma set_wayland_clipboard_failed data mime wd :
  checked_call_fails
    (oracle wd (clock wd)
       (WlCopy (if is_text_mime mime then lit "text/plain;charset=utf-8" else mime)
               data)) = true ->
  exists wd',
    set_wayland_clipboard data mime wd = (Ok tt, wd')
    /\ grows wd wd'
         [Ran (WlCopy (if is_text_mime mime
                       then lit "text/plain;charset=utf-8" else mime) data);
          Printed MsgTraceback].
Proof.
  intros F.
  unfold set_wayland_clipboard, try_except, bind, subprocess_run, ret, print, emit.
  match type of F with
  | checked_call_fails (oracle wd (clock wd) ?c) = true =>
      destruct (oracle wd (clock wd) c) as [rc out|]; cbn in F
  end.
  1: rewrite F; cbn [andb].
  all: eexists; split; [reflexivity|].
  all: unfold grows; cbn [trace oracle html_parser]; rewrite <- ?app_assoc; auto.
Qed.

(** The state the rules leave does not depend on the world they run in. *)
Lemma apply_rules_state st w x st' evs :
  outcome st w x st' evs ->
  forall wd, fst (apply_rules st w x wd) = Ok st'.
Proof.
  intros O wd.
  destruct (apply_rules_outcome st w x wd) as (s2 & wd2 & e2 & E2 & _ & O2).
  rewrite E2. cbn [fst]. f_equal. exact (outcome_state_unique _ _ _ _ _ _ _ O2 O).
Qed.

(** A turn of the loop is the wake-up, the pass, and the rest of the loop. *)
Lemma loop_turn st wd st' wd' n wd0 :
  cycle st wd = (Ok st', wd') ->
  wait_for_change wd0 = (Ok tt, wd) ->
  loop (S n) st wd0 = loop n st' wd'.
Proof.
  intros E Hwake. cbn [loop]. unfold bind at 1. rewrite Hwake.
  unfold bind at 1. rewrite E. reflexivity.
Qed.

(** Rule A with a failing write. *)
Lemma apply_rules_A_failed st w x wd :
  rule_A_applies st w x -> fst w <> last_x_data st ->
  checked_call_fails (oracle wd (clock wd) (XclipIn (snd w) (fst w))) = true ->
  exists wd',
    apply_rules st w x wd = (Ok (mkState (fst w) (snd w) (fst w) (snd w)), wd')
    /\ grows wd wd' [Printed (MsgWaylandToX11 (snd w));
                     Ran (XclipIn (snd w) (fst w)); Printed MsgTraceback].
Proof.
  destruct st as [lwd lwm lxd lxm], w as [w_data w_mime], x as [x_data x_mime].
  unfold rule_A_applies, key.
  cbn [fst snd last_w_data last_w_mime last_x_data last_x_mime].
  intros [A1 A2] G F. unfold apply_rules.
  cbn [last_w_data last_w_mime last_x_data last_x_mime].
  rewrite (proj2 (bytes_neb_true _ _) A1), (proj2 (bytes_neb_true _ _) A2),
    (proj2 (bytes_neb_true _ _) G). cbn [andb].
  destruct (set_x11_clipboard_failed w_data w_mime
              (printed (MsgWaylandToX11 w_mime) wd) F) as (wd' & E & Gr).
  exists wd'. unfold bind, print, emit, ret. fold (printed (MsgWaylandToX11 w_mime) wd).
  rewrite E. split; [reflexivity|].
  apply (grows_trans _ _ _ [_] _ (grows_emit _ _) Gr).
Qed.

(** Rule B with a failing write. *)
Lemma apply_rules_B_failed st w x wd :
  ~ rule_A_applies st w x ->
  rule_B_applies st w x -> fst x <> last_w_data st ->
  checked_call_fails
    (oracle wd (clock wd)
       (WlCopy (if is_text_mime (snd x)
                then lit "text/plain;charset=utf-8" else snd x) (fst x))) = true ->
  exists wd',
    apply_rules st w x wd = (Ok (mkState (fst x) (snd x) (fst x) (snd x)), wd')
    /\ grows wd wd'
         [Printed (MsgX11ToWayland (snd x));
          Ran (WlCopy (if is_text_mime (snd x)
                       then lit "text/plain;charset=utf-8" else snd x) (fst x));
          Printed MsgTraceback].
Proof.
  destruct st as [lwd lwm lxd lxm], w as [w_data w_mime], x as [x_data x_mime].
  unfold rule_A_applies, rule_B_applies, key.
  cbn [fst snd last_w_data last_w_mime last_x_data last_x_mime].
  intros NA [B1 B2] G F. unfold apply_rules.
  cbn [last_w_data last_w_mime last_x_data last_x_mime].
  assert (HA : bytes_neb w_data lwd
               && bytes_neb (norm_data w_data w_mime) (norm_data x_data x_mime) = false).
  { split_neb w_data lwd; [|reflexivity].
    split_neb (norm_data w_data w_mime) (norm_data x_data x_mime); [|reflexivity].
    exfalso. apply NA. auto. }
  rewrite HA, (proj2 (bytes_neb_true _ _) B1), (proj2 (bytes_neb_true _ _) B2),
    (proj2 (bytes_neb_true _ _) G). cbn [andb].
  destruct (set_wayland_clipboard_failed x_data x_mime
              (printed (MsgX11ToWayland x_mime) wd) F) as (wd' & E & Gr).
  exists wd'. unfold bind, print, emit, ret. fold (printed (MsgX11ToWayland x_mime) wd).
  rewrite E. split; [reflexivity|].
  apply (grows_trans _ _ _ [_] _ (grows_emit _ _) Gr).
Qed.

(** The conflict branch with a failing write. *)
Lemma apply_rules_C_failed st w x wd :
  ~ rule_A_applies st w x -> ~ rule_B_applies st w x ->
  rule_C_applies st w x -> fst w <> last_x_data st ->
  checked_call_fails (oracle wd (clock wd) (XclipIn (snd w) (fst w))) = true ->
  exists wd',
    apply_rules st w x wd = (Ok (mkState (fst w) (snd w) (fst w) (snd w)), wd')
    /\ grows wd wd' [Printed (MsgConflict (snd w));
                     Ran (XclipIn (snd w) (fst w)); Printed MsgTraceback].
Proof.
  destruct st as [lwd lwm lxd lxm], w as [w_data w_mime], x as [x_data x_mime].
  unfold rule_A_applies, rule_B_applies, rule_C_applies, key.
  cbn [fst snd last_w_data last_w_mime last_x_data last_x_mime].
  intros NA NB [C1 C2] G F. unfold apply_rules.
  cbn [last_w_data last_w_mime last_x_data last_x_mime].
  assert (HA : bytes_neb w_data lwd
               && bytes_neb (norm_data w_data w_mime) (norm_data x_data x_mime) = false).
  { split_neb w_data lwd; [|reflexivity].
    split_neb (norm_data w_data w_mime) (norm_data x_data x_mime); [|reflexivity].
    exfalso. apply NA. auto. }
  assert (HB : bytes_neb x_data lxd
               && bytes_neb (norm_data x_data x_mime) (norm_data w_data w_mime) = false).
  { split_neb x_data lxd; [|reflexivity].
    split_neb (norm_data x_data x_mime) (norm_data w_data w_mime); [|reflexivity].
    exfalso. apply NB. auto. }
  rewrite HA, HB, (proj2 (bytes_neb_true _ _) C1), (proj2 (bytes_neb_true _ _) C2),
    (proj2 (bytes_neb_true _ _) G). cbn [andb].
  destruct (set_x11_clipboard_failed w_data w_mime
              (printed (MsgConflict w_mime) wd) F) as (wd' & E & Gr).
  exists wd'. unfold bind, print, emit, ret. fold (printed (MsgConflict w_mime) wd).
  rewrite E. split; [reflexivity|].
  apply (grows_trans _ _ _ [_] _ (grows_emit _ _) Gr).
Qed.

(** The pass whose rules fire with a failing write, and the turn of the loop
    around it. *)
Lemma failed_write_pass st wd w x wd1 st' evs :
  read_snapshots wd = (Ok (w, x), wd1) ->
  (exists wd', apply_rules st w x wd1 = (Ok st', wd') /\ grows wd1 wd' evs) ->
  exists wd',
    cycle st wd = (Ok st', wd')
    /\ events_since wd1 wd' = evs
    /\ (forall wd_ok, fst (apply_rules st w x wd_ok) = Ok st')
    /\ (forall n wd0,
          wait_for_change wd0 = (Ok tt, wd) ->
          loop (S n) st wd0 = loop n st' wd').
Proof.
  intros R (wd' & E & G). exists wd'.
  assert (C : cycle st wd = (Ok st', wd')).
  { unfold cycle, bind. rewrite R. exact E. }
  split; [exact C|]. split; [exact (events_since_grows _ _ _ G)|]. split.
  - destruct (apply_rules_outcome st w x wd1) as (s2 & wd2 & e2 & E2 & _ & O2).
    rewrite E in E2. injection E2 as <- <-.
    exact (apply_rules_state _ _ _ _ _ O2).
  - intros n wd0 Hwake. exact (loop_turn _ _ _ _ _ _ C Hwake).
Qed.

(** C8.  Take a pass whose snapshots are [w] and [x], read up to the
    world [wd1].  When Rule A, Rule B or the conflict branch fires, its
    guard lets the write through, and the checked helper call fails (it
    raises or exits with an error), the pass still returns normally: the
    branch message, the call and a traceback are all that happens after the
    reads, and both sides are remembered as the snapshot that was written,
    which is the state the rules leave in every world, so also where the
    write succeeds; the loop goes on with that state. *)
Theorem write_failure_state_update st wd w x wd1 :
  read_snapshots wd = (Ok (w, x), wd1) ->
  (rule_A_applies st w x -> fst w <> last_x_data st ->
   checked_call_fails (oracle wd1 (clock wd1) (XclipIn (snd w) (fst w))) = true ->
   exists wd',
     cycle st wd = (Ok (mkState (fst w) (snd w) (fst w) (snd w)), wd')
     /\ events_since wd1 wd'
        = [Printed (MsgWaylandToX11 (snd w)); Ran (XclipIn (snd w) (fst w));
           Printed MsgTraceback]
     /\ (forall wd_ok,
           fst (apply_rules st w x wd_ok)
           = Ok (mkState (fst w) (snd w) (fst w) (snd w)))
     /\ (forall n wd0,
           wait_for_change wd0 = (Ok tt, wd) ->
           loop (S n) st wd0
           = loop n (mkState (fst w) (snd w) (fst w) (snd w)) wd'))
  /\ (~ rule_A_applies st w x -> rule_B_applies st w x ->
      fst x <> last_w_data st ->
      checked_call_fails
        (oracle wd1 (clock wd1)
           (WlCopy (if is_text_mime (snd x)
                    then lit "text/plain;charset=utf-8" else snd x) (fst x))) = true ->
      exists wd',
        cycle st wd = (Ok (mkState (fst x) (snd x) (fst x) (snd x)), wd')
        /\ events_since wd1 wd'
           = [Printed (MsgX11ToWayland (snd x));
              Ran (WlCopy (if is_text_mime (snd x)
                           then lit "text/plain;charset=utf-8" else snd x) (fst x));
              Printed MsgTraceback]
        /\ (forall wd_ok,
              fst (apply_rules st w x wd_ok)
              = Ok (mkState (fst x) (snd x) (fst x) (snd x)))
        /\ (forall n wd0,
              wait_for_change wd0 = (Ok tt, wd) ->
              loop (S n) st wd0
              = loop n (mkState (fst x) (snd x) (fst x) (snd x)) wd'))
  /\ (~ rule_A_applies st w x -> ~ rule_B_applies st w x ->
      rule_C_applies st w x -> fst w <> last_x_data st ->
      checked_call_fails (oracle wd1 (clock wd1) (XclipIn (snd w) (fst w))) = true ->
      exists wd',
        cycle st wd = (Ok (mkState (fst w) (snd w) (fst w) (snd w)), wd')
        /\ events_since wd1 wd'
           = [Printed (MsgConflict (snd w)); Ran (XclipIn (snd w) (fst w));
              Printed MsgTraceback]
        /\ (forall wd_ok,
              fst (apply_rules st w x wd_ok)
              = Ok (mkState (fst w) (snd w) (fst w) (snd w)))
        /\ (forall n wd0,
              wait_for_change wd0 = (Ok tt, wd) ->
              loop (S n) st wd0
              = loop n (mkState (fst w) (snd w) (fst w) (snd w)) wd')).
Proof.
  intros R. split; [|split].
  - intros A G F. apply (failed_write_pass _ _ _ _ _ _ _ R).
    exact (apply_rules_A_failed _ _ _ _ A G F).
  - intros NA B G F. apply (failed_write_pass _ _ _ _ _ _ _ R).
    exact (apply_rules_B_failed _ _ _ _ NA B G F).
  - intros NA NB C G F. apply (failed_write_pass _ _ _ _ _ _ _ R).
    exact (apply_rules_C_failed _ _ _ _ NA NB C G F).
Qed.

Lemma write_failure_state_update_witness :
  (exists wd',
     cycle initial_state write_fails
     = (Ok (mkState (blit "one") text_plain (blit "one") text_plain), wd')
     /\ events_since (snd (read_snapshots write_fails)) wd'
        = [Printed (MsgWaylandToX11 text_plain);
           Ran (XclipIn text_plain (blit "one")); Printed MsgTraceback])
  /\ (exists wd',
        cycle initial_state wayland_write_raises
        = (Ok (mkState (blit "two") text_plain (blit "two") text_plain), wd')
        /\ events_since (snd (read_snapshots wayland_write_raises)) wd'
           = [Printed (MsgX11ToWayland text_plain);
              Ran (WlCopy text_plain_utf8 (blit "two")); Printed MsgTraceback])
  /\ (exists wd',
        cycle initial_state conflict_write_fails
        = (Ok (mkState a_lf text_plain a_lf text_plain), wd')
        /\ events_since (snd (read_snapshots conflict_write_fails)) wd'
           = [Printed (MsgConflict text_plain);
              Ran (XclipIn text_plain a_lf); Printed MsgTraceback]).
Proof.
  split; [|split].
  - destruct (proj1 (write_failure_state_update
                       initial_state write_fails
                       (blit "one", text_plain) (blit "two", text_plain)
                       (snd (read_snapshots write_fails)) eq_refl))
      as (wd' & C & E & _).
    + split; vm_compute; discriminate.
    + vm_compute; discriminate.
    + vm_compute; reflexivity.
    + exists wd'. split; assumption.
  - destruct (proj1 (proj2 (write_failure_state_update
                       initial_state wayland_write_raises
                       ([], text_plain_utf8) (blit "two", text_plain)
                       (snd (read_snapshots wayland_write_raises)) eq_refl)))
      as (wd' & C & E & _).
    + intros [A _]. apply A. reflexivity.
    + split; vm_compute; discriminate.
    + vm_compute; discriminate.
    + vm_compute; reflexivity.
    + exists wd'. split; assumption.
  - destruct (proj2 (proj2 (write_failure_state_update
                       initial_state conflict_write_fails
                       (a_lf, text_plain) (blit "a", text_plain)
                       (snd (read_snapshots conflict_write_fails)) eq_refl)))
      as (wd' & C & E & _).
    + intros [_ A]. apply A. vm_compute. reflexivity.
    + intros [_ B]. apply B. vm_compute. reflexivity.
    + split; vm_compute; discriminate.
    + vm_compute; discriminate.
    + vm_compute; reflexivity.
    + exists wd'. split; assumption.
Defined.

(** The same pass with a failing and with a working write helper: the
    traceback is the only difference. *)
Lemma write_failure_example :
  fst (cycle initial_state write_fails) = fst (cycle initial_state one_then_synced)
  /\ events_since write_fails (snd (cycle initial_state write_fails))
     = events_since one_then_synced (snd (cycle initial_state one_then_synced))
       ++ [Printed MsgTraceback].
Proof. vm_compute. split; reflexivity. Qed.

(** C9.  In every pass, what is written to a side is the raw data of the
    other side's snapshot of this pass (after the HTML step), and what is
    remembered for a side afterwards is what was remembered before or one
    of the two snapshots of this pass, data and MIME together; a
    comparison key is neither written nor remembered. *)
Theorem raw_bytes_invariant st wd :
  exists w x wd1 st' wd',
    read_snapshots wd = (Ok (w, x), wd1)
    /\ cycle st wd = (Ok st', wd')
    /\ (forall side data mime,
          In (side, data, mime) (writes_in (events_since wd wd')) ->
          data = fst (snapshot_of (w, x) (other side)))
    /\ (forall side,
          last_snapshot st' side = last_snapshot st side
          \/ last_snapshot st' side = w
          \/ last_snapshot st' side = x).
Proof.
  destruct (read_snapshots_total wd) as ([w x] & wd1 & R).
  destruct (cycle_outcome st wd w x wd1 R) as (st' & wd' & evs & E & O & W & _).
  exists w, x, wd1, st', wd'. repeat split; try assumption.
  - intros side data mime. rewrite W.
    destruct (outcome_writes _ _ _ _ _ O) as [-> | [-> | [m ->]]]; cbn [In].
    + intros [].
    + intros [[= <- <- <-]|[]]. reflexivity.
    + intros [[= <- <- <-]|[]]. reflexivity.
  - exact (outcome_raw _ _ _ _ _ O).
Qed.

(** C10.  The conflict branch runs (its message is printed) only in a
    pass whose two snapshots have equal comparison keys; so whatever that
    pass writes goes to X11, is the Wayland snapshot, and has the key that
    the X11 snapshot already has. *)
Theorem conflict_branch_keys_equal st wd w x wd1 r wd' m :
  read_snapshots wd = (Ok (w, x), wd1) ->
  cycle st wd = (r, wd') ->
  In (Printed (MsgConflict m)) (events_since wd wd') ->
  key w = key x
  /\ forall side data mime,
       In (side, data, mime) (writes_in (events_since wd wd')) ->
       side = X11 /\ data = fst w /\ mime = snd w
       /\ norm_data data mime = key x.
Proof.
  intros R C Hin.
  destruct (cycle_outcome st wd w x wd1 R) as (st' & wd3 & evs & E & O & W & M).
  rewrite E in C. injection C as <- <-.
  apply M in Hin. destruct (outcome_conflict _ _ _ _ _ _ O Hin) as [K Hw].
  split; [exact K|]. intros side data mime. rewrite W.
  destruct Hw as [-> | ->]; cbn [In]; [intros []|].
  intros [[= <- <- <-]|[]]. repeat split. exact K.
Qed.

Lemma conflict_branch_keys_equal_witness :
  key (a_lf, text_plain) = key (blit "a", text_plain)
  /\ forall side data mime,
       In (side, data, mime)
          (writes_in (events_since conflict_world
                        (snd (cycle initial_state conflict_world)))) ->
       side = X11 /\ data = fst (a_lf, text_plain) /\ mime = snd (a_lf, text_plain)
       /\ norm_data data mime = key (blit "a", text_plain).
Proof.
  apply (conflict_branch_keys_equal initial_state conflict_world
           (a_lf, text_plain) (blit "a", text_plain)
           (snd (read_snapshots conflict_world))
           (fst (cycle initial_state conflict_world))
           (snd (cycle initial_state conflict_world))
           text_plain).
  - vm_compute. reflexivity.
  - vm_compute. reflexivity.
  - vm_compute. auto 10.
Defined.

(** ** Start-up *)

(** A missing tool is reported and the loop is never entered. *)
Lemma main_tool_missing n wd rc out :
  oracle wd (clock wd) (Which (lit "wl-copy")) = Exited rc out ->
  rc <> 0 ->
  exists wd',
    main n wd = (Ok None, wd')
    /\ events_since wd wd'
       = [Ran (Which (lit "wl-copy")); Printed (MsgToolMissing (lit "wl-copy"))].
Proof.
  intros Ho Hrc. unfold main, bind at 1. cbn [check_tools].
  unfold bind at 1, command_exists, bind at 1, subprocess_run. rewrite Ho.
  cbn [andb fst ret]. apply Z.eqb_neq in Hrc. rewrite Hrc.
  unfold ret at 1. unfold bind, print, emit, ret. eexists. split; [reflexivity|].
  apply events_since_grows. unfold grows. cbn [trace oracle html_parser].
  rewrite <- app_assoc. auto.
Qed.

End EngineFacts.

(* ------------------------------------------------------------------ *)
(** * More on the text normaliser *)

Module NormMore.

Import Py PyFacts Clipsync NormFacts Notions.

(** ** Size *)

Lemma encode_char_length (ch : Z) :
  (length (encode_char ch) <= encoded_size ch)%nat.
Proof.
  unfold encode_char, encoded_size.
  destruct (ch <? 0x80); [cbn; lia|].
  destruct (ch <? 0x800); [cbn; lia|].
  destruct (is_surrogate ch); destruct (ch <? 0x10000); cbn; lia.
Qed.

Lemma encode_lstrip_length chars s :
  (length (encode (lstrip chars s)) <= length (encode s))%nat.
Proof.
  induction s as [|c s IH]; [reflexivity|].
  cbn [lstrip]. destruct (mem c chars); [|reflexivity].
  cbn [encode]. rewrite length_app. lia.
Qed.

Lemma encode_rstrip_length chars s :
  (length (encode (rstrip chars s)) <= length (encode s))%nat.
Proof.
  induction s as [|c s IH] using rev_ind; [reflexivity|].
  rewrite rstrip_snoc. destruct (mem c chars); [|reflexivity].
  rewrite encode_app, length_app. lia.
Qed.

Lemma encode_decode_length (bs : bytes) :
  (length (encode (decode bs)) <= 3 * length bs)%nat.
Proof.
  assert (G : forall n bs, (length bs <= n)%nat ->
                           (length (encode (decode bs)) <= 3 * length bs)%nat);
    [|exact (G (length bs) bs (le_n _))].
  clear bs. induction n as [|n IH]; intros [|c1 t1] Hle;
    cbn [length] in Hle; try (cbn; lia).
  pose proof (ord_range c1) as R1.
  cbn [decode]. unfold is_continuation, REPLACEMENT.
  repeat (cbn [negb andb orb];
    match goal with
    | |- (length (encode (if ?c then _ else _)) <= _)%nat =>
        match c with
        | context [?a <? ?b] => destruct (Z.ltb_spec a b)
        | context [?a <=? ?b] => destruct (Z.leb_spec a b)
        | context [?a =? ?b] => destruct (Z.eqb_spec a b)
        end
    | |- (length (encode (match ?t with [] => _ | _ :: _ => _ end)) <= _)%nat =>
        let c := fresh "c" in
        destruct t as [|c ?]; [ | pose proof (ord_range c)]
    end); cbn [negb andb orb].
  all: cbn [encode length]; rewrite ?length_app.
  all: try match goal with
           | |- context [length (encode (decode ?t))] =>
               let H := fresh in
               assert (H : (length (encode (decode t)) <= 3 * length t)%nat)
                 by (apply IH; cbn [length] in Hle |- *; lia);
               revert H
           end.
  all: try match goal with
           | |- context [encode_char ?ch] =>
               let H := fresh in
               pose proof (encode_char_length ch) as H; unfold encoded_size in H;
               revert H
           end.
  all: rewrite ?shiftl_mul by lia.
  all: repeat match goal with
              | |- context [if ?a <? ?b then _ else _] =>
                  destruct (Z.ltb_spec a b); try lia
              end.
  all: cbn [length]; lia.
Qed.

(** The comparison key of a text is at most three times as long as the
    data: each ill-formed byte becomes the three bytes of U+FFFD, and
    stripping only shortens. *)
Theorem normalize_text_length (data : bytes) :
  (length (normalize_text data) <= 3 * length data)%nat.
Proof.
  unfold normalize_text, decode_utf8, strip.
  pose proof (encode_lstrip_length [0x0D; 0x0A] (rstrip [0x0D; 0x0A] (rstrip [0] (decode data)))).
  pose proof (encode_rstrip_length [0x0D; 0x0A] (rstrip [0] (decode data))).
  pose proof (encode_rstrip_length [0] (decode data)).
  pose proof (encode_decode_length data). lia.
Qed.

(** ** Well-formedness *)

(** Whatever the data, its comparison key is well-formed UTF-8: decoding
    the key replaces nothing, and encoding the decoded key gives the key
    back. *)
Theorem normalize_text_well_formed (data : bytes) :
  encode (decode (normalize_text data)) = normalize_text data
  /\ Forall (fun ch => is_scalar ch = true) (decode (normalize_text data))
  /\ (In REPLACEMENT (decode (normalize_text data)) ->
      In REPLACEMENT (decode data)).
Proof.
  destruct (normalize_text_shape data) as (s & E & Hs & _).
  assert (D : decode (normalize_text data) = strip [0x0D; 0x0A] (decode_utf8 data)).
  { unfold normalize_text. apply decode_encode, Forall_strip, decode_utf8_scalar. }
  split; [|split].
  - rewrite D. reflexivity.
  - apply decode_scalar.
  - rewrite D. unfold strip, decode_utf8. intros H.
    assert (L : forall chars t, In REPLACEMENT (lstrip chars t) -> In REPLACEMENT t).
    { intros chars t. induction t as [|c t IH]; [easy|]. cbn [lstrip].
      destruct (mem c chars); [right; auto | easy]. }
    assert (R : forall chars t, In REPLACEMENT (rstrip chars t) -> In REPLACEMENT t).
    { intros chars t. induction t as [|c t IH] using rev_ind; [easy|].
      rewrite rstrip_snoc. destruct (mem c chars); [|easy].
      intros Hin. apply in_or_app. left. auto. }
    now apply L, R, R in H.
Qed.

(** ** Line ends *)

Lemma decode_nil (bs : bytes) : decode bs = [] -> bs = [].
Proof.
  destruct bs as [|c1 t1]; [reflexivity|]. cbn [decode]. unfold REPLACEMENT.
  repeat match goal with
         | |- (if ?c then _ else _) = [] -> _ => destruct c
         | |- match ?t with [] => _ | _ :: _ => _ end = [] -> _ => destruct t
         end; discriminate.
Qed.

(** Decoding does not look across an ASCII byte: a sequence cut short by
    it is replaced exactly as one cut short by the end of the data. *)
Lemma decode_app_ascii (a : bytes) (c : byte) (b : bytes) :
  ord c < 0x80 -> decode (a ++ c :: b) = decode a ++ decode (c :: b).
Proof.
  intros Hc.
  assert (G : forall n a, (length a <= n)%nat ->
                          decode (a ++ c :: b) = decode a ++ decode (c :: b));
    [|exact (G (length a) a (le_n _))].
  clear a. remember (decode (c :: b)) as tail eqn:Et.
  pose proof (ord_range c) as Rc.
  induction n as [|n IH]; intros [|c1 t1] Hle; cbn [length] in Hle;
    try (cbn [app decode]; now subst tail); try lia.
  cbn [app decode]. unfold is_continuation, REPLACEMENT.
  repeat (cbn [negb andb orb app];
    match goal with
    | |- (if ?c then _ else _) = _ =>
        match c with
        | context [?a <? ?b] => destruct (Z.ltb_spec a b); try lia
        | context [?a <=? ?b] => destruct (Z.leb_spec a b); try lia
        | context [?a =? ?b] => destruct (Z.eqb_spec a b); try lia
        end
    | |- match ?t ++ _ with [] => _ | _ :: _ => _ end = _ => destruct t
    end); cbn [negb andb orb app].
  all: try (subst tail; reflexivity).
  all: f_equal;
    match goal with
    | |- _ = decode ?x ++ _ =>
        apply (IH x); cbn [length] in Hle |- *; lia
    end.
Qed.

Lemma chr8_ord (b : byte) : chr8 (ord b) = b.
Proof. unfold ord, chr8. now rewrite N2Z.id, Byte.of_to_N. Qed.

Lemma ord_zero (c : byte) : ord c = 0 -> c = Byte.x00.
Proof.
  intros H. rewrite <- (chr8_ord c), H. reflexivity.
Qed.

Lemma ends_with_nul_cons (c : byte) (bs : bytes) :
  ends_with_nul bs = true -> ends_with_nul (c :: bs) = true.
Proof. destruct bs; [discriminate | auto]. Qed.

(** A decoded text ends with NUL only if the data ends with a NUL byte. *)
Lemma decode_ends_with_nul (bs : bytes) (s : str) :
  decode bs = s ++ [0] -> ends_with_nul bs = true.
Proof.
  assert (G : forall n bs, (length bs <= n)%nat ->
                           forall s, decode bs = s ++ [0] -> ends_with_nul bs = true);
    [|exact (G (length bs) bs (le_n _) s)].
  clear bs s. induction n as [|n IH]; intros [|c1 t1] Hle; cbn [length] in Hle;
    try lia; try (intros [|? ?]; discriminate).
  pose proof (ord_range c1) as R1. intros s.
  cbn [decode]. unfold is_continuation, REPLACEMENT.
  repeat (cbn [negb andb orb];
    match goal with
    | |- (if ?c then _ else _) = _ -> _ =>
        match c with
        | context [?a <? ?b] => destruct (Z.ltb_spec a b)
        | context [?a <=? ?b] => destruct (Z.leb_spec a b)
        | context [?a =? ?b] => destruct (Z.eqb_spec a b)
        end
    | |- match ?t with [] => _ | _ :: _ => _ end = _ -> _ =>
        let c := fresh "c" in
        destruct t as [|c ?]; [ | pose proof (ord_range c)]
    end); cbn [negb andb orb].
  all: rewrite ?shiftl_mul by lia.
  all: destruct s as [|y s]; cbn [app]; intros E; try discriminate E;
    pose proof (f_equal (hd 0) E) as E0; pose proof (f_equal (@tl Z) E) as E1;
    cbn [hd tl] in E0, E1; clear E.
  all: try (destruct s; discriminate E1).
  all: try (apply decode_nil in E1; subst;
            first [ lia | apply ord_zero in E0; subst; reflexivity ]).
  all: apply IH in E1; [|cbn [length] in Hle |- *; lia].
  all: repeat first [assumption | apply ends_with_nul_cons].
Qed.

Lemma is_line_end_ord (b : byte) :
  is_line_end b = true -> ord b < 0x80 /\ mem (ord b) [0x0D; 0x0A] = true
                          /\ mem (ord b) [0] = false.
Proof.
  unfold is_line_end. rewrite orb_true_iff.
  intros [H|H]; apply Byte.byte_dec_bl in H; subst b;
    repeat split; vm_compute; reflexivity.
Qed.

Lemma decode_line_ends (nl : bytes) :
  forallb is_line_end nl = true ->
  decode nl = List.map ord nl.
Proof.
  induction nl as [|c nl IH]; [reflexivity|].
  cbn [forallb]. rewrite andb_true_iff. intros [Hc Hnl].
  apply is_line_end_ord in Hc as (Hc & _).
  rewrite decode_ascii by assumption. cbn [List.map]. now rewrite IH.
Qed.

Lemma rstrip_app_all chars s t :
  forallb (fun c => mem c chars) t = true ->
  rstrip chars (s ++ t) = rstrip chars s.
Proof.
  induction t as [|c t IH] using rev_ind; [now rewrite app_nil_r|].
  rewrite forallb_app. cbn [forallb]. rewrite !andb_true_iff. intros (Ht & Hc & _).
  rewrite app_assoc, rstrip_snoc, Hc. auto.
Qed.

Lemma rstrip_app_keep chars s t :
  t <> [] -> forallb (fun c => negb (mem c chars)) t = true ->
  rstrip chars (s ++ t) = s ++ t.
Proof.
  destruct t as [|c t _] using rev_ind; [congruence|]. intros _.
  rewrite forallb_app. cbn [forallb]. rewrite !andb_true_iff, negb_true_iff.
  intros (_ & Hc & _). now rewrite app_assoc, rstrip_snoc, Hc.
Qed.

(** A leading character that only the second stripping removes makes no
    difference. *)
Lemma strip_rstrip_cons chars1 chars2 c u :
  mem c chars1 = false -> mem c chars2 = true ->
  strip chars2 (rstrip chars1 (c :: u)) = strip chars2 (rstrip chars1 u).
Proof.
  intros H1 H2. cbn [rstrip]. destruct (rstrip chars1 u) as [|d r] eqn:E.
  - rewrite H1. unfold strip. cbn [rstrip lstrip]. now rewrite H2.
  - unfold strip. remember (d :: r) as v eqn:Ev. cbn [rstrip].
    destruct (rstrip chars2 v) as [|e r'].
    + now rewrite H2.
    + cbn [lstrip]. now rewrite H2.
Qed.

(** Text data that differ only by carriage returns and line feeds around
    them have the same comparison key: any run of CR and LF bytes before the
    data is absorbed, and so is any run after data that do not end with a
    NUL byte. *)
Theorem normalize_text_line_ends (data nl : bytes) :
  forallb is_line_end nl = true ->
  normalize_text (nl ++ data) = normalize_text data
  /\ (ends_with_nul data = false ->
      normalize_text (data ++ nl) = normalize_text data).
Proof.
  intros Hnl. split.
  - unfold normalize_text, decode_utf8. f_equal.
    induction nl as [|c nl IH]; [reflexivity|].
    cbn [forallb] in Hnl. apply andb_true_iff in Hnl as [Hc Hnl].
    apply is_line_end_ord in Hc as (Ha & Hm & Hz).
    cbn [app]. rewrite decode_ascii by assumption.
    rewrite strip_rstrip_cons by assumption. auto.
  - intros Hz. unfold normalize_text, decode_utf8. f_equal.
    destruct nl as [|c nl]; [now rewrite app_nil_r|].
    assert (Hc : ord c < 0x80).
    { cbn [forallb] in Hnl. apply andb_true_iff in Hnl as [Hc _].
      now apply is_line_end_ord in Hc. }
    rewrite decode_app_ascii, (decode_line_ends (c :: nl)) by assumption.
    assert (Hall : forallb (fun ch => mem ch [0x0D; 0x0A]) (List.map ord (c :: nl)) = true
                   /\ forallb (fun ch => negb (mem ch [0])) (List.map ord (c :: nl)) = true).
    { clear Hc. revert Hnl. generalize (c :: nl). intros l.
      induction l as [|b l IH]; [split; reflexivity|].
      cbn [forallb List.map]. rewrite !andb_true_iff. intros [Hb Hl].
      apply is_line_end_ord in Hb as (_ & Hm & Hn). rewrite Hm, Hn.
      destruct (IH Hl). auto. }
    destruct Hall as [Hcr Hnz].
    rewrite rstrip_app_keep by (assumption || discriminate).
    rewrite (rstrip_fix [0] (decode data)).
    + unfold strip. now rewrite rstrip_app_all.
    + intros s' ch E. cbn [mem]. rewrite orb_false_r.
      destruct (Z.eqb_spec ch 0) as [->|]; [|reflexivity].
      apply decode_ends_with_nul in E. congruence.
Qed.

Lemma normalize_text_line_ends_witness :
  normalize_text ([Byte.x0d; Byte.x0a] ++ blit "hello") = normalize_text (blit "hello")
  /\ (ends_with_nul (blit "hello") = false ->
      normalize_text (blit "hello" ++ [Byte.x0d; Byte.x0a])
      = normalize_text (blit "hello")).
Proof.
  apply (normalize_text_line_ends (blit "hello") [Byte.x0d; Byte.x0a]). reflexivity.
Defined.

(** ** The ends of a key *)

Lemma lstrip_head chars s c r : lstrip chars s = c :: r -> mem c chars = false.
Proof.
  induction s as [|d s IH]; [discriminate|]. cbn [lstrip].
  destruct (mem d chars) eqn:E; [exact IH|]. now intros [= <- _].
Qed.

(** An ASCII byte at either end of the encoding of a code point is that
    code point. *)
Lemma encode_char_ascii_ends (ch : Z) :
  is_scalar ch = true ->
  (forall b rest, encode_char ch = b :: rest -> ord b < 0x80 -> ord b = ch)
  /\ (forall pre b, encode_char ch = pre ++ [b] -> ord b < 0x80 -> ord b = ch).
Proof.
  intros H. apply is_scalar_iff in H. unfold encode_char, is_surrogate.
  rewrite !shiftr_div, !land_3F by lia.
  change (2 ^ 6) with 64; change (2 ^ 12) with 4096; change (2 ^ 18) with 262144.
  assert (0 <= ch mod 64 < 64) by (apply Z.mod_pos_bound; lia).
  rewrite lor_80 by assumption.
  destruct (Z.ltb_spec ch 0x80).
  { split.
    - intros b rest [= <- _] _. apply ord_chr8. lia.
    - intros pre b E _. change [chr8 ch] with ([] ++ [chr8 ch]) in E.
      apply app_inj_tail in E as [_ <-]. apply ord_chr8. lia. }
  assert (L : forall pre b x, 0x80 <= x < 256 -> ord b < 0x80 ->
                              forall front, front ++ [chr8 x] = pre ++ [b] -> False).
  { intros pre b x Hx Hb front E. apply app_inj_tail in E as [_ <-].
    rewrite ord_chr8 in Hb; lia. }
  assert (F : forall b x rest rest', 0x80 <= x < 256 -> ord b < 0x80 ->
                                     chr8 x :: rest = b :: rest' -> False).
  { intros b x rest rest' Hx Hb [= <- _]. rewrite ord_chr8 in Hb; lia. }
  destruct (Z.ltb_spec ch 0x800).
  { rewrite lor_C0 by dlia. split.
    - intros b rest E Hb. exfalso. eapply (F b); [|exact Hb|exact E]. dlia.
    - intros pre b E Hb. exfalso.
      eapply (L pre b (0x80 + ch mod 64)); [lia | exact Hb | ].
      instantiate (1 := [_]). exact E. }
  destruct (Z.leb_spec 0xD800 ch); destruct (Z.leb_spec ch 0xDFFF); cbn [andb]; try lia.
  all: destruct (Z.ltb_spec ch 0x10000); try lia.
  all: rewrite ?lor_E0, ?lor_F0 by dlia.
  all: split;
    [ intros b rest E Hb; exfalso; eapply (F b); [|exact Hb|exact E]; dlia
    | intros pre b E Hb; exfalso;
      eapply (L pre b (0x80 + ch mod 64)); [lia | exact Hb | ] ].
  all: first [ instantiate (1 := [_; _]); exact E
             | instantiate (1 := [_; _; _]); exact E ].
Qed.

(** The comparison key of a text never begins and never ends with a CR
    or LF byte. *)
Theorem normalize_text_edges (data : bytes) :
  (forall b rest, normalize_text data = b :: rest -> is_line_end b = false)
  /\ (forall pre b, normalize_text data = pre ++ [b] -> is_line_end b = false).
Proof.
  unfold normalize_text.
  assert (Hs : Forall (fun ch => is_scalar ch = true) (strip [0x0D; 0x0A] (decode_utf8 data)))
    by apply Forall_strip, decode_utf8_scalar.
  assert (Hl : forall c r, strip [0x0D; 0x0A] (decode_utf8 data) = c :: r ->
                           mem c [0x0D; 0x0A] = false)
    by (intros c r; apply lstrip_head).
  assert (Hr : rstripped [0x0D; 0x0A] (strip [0x0D; 0x0A] (decode_utf8 data)))
    by apply lstrip_rstripped, rstrip_rstripped.
  revert Hs Hl Hr. generalize (strip [0x0D; 0x0A] (decode_utf8 data)). intros s Hs Hl Hr.
  split.
  - intros b rest E. destruct s as [|c s]; [discriminate|].
    inversion Hs as [|? ? Hc _]; subst. cbn [encode] in E.
    destruct (encode_char c) as [|b' r'] eqn:Ec; [now apply encode_char_nonempty in Ec|].
    injection E as -> _.
    destruct (is_line_end b) eqn:Eb; [|reflexivity].
    apply is_line_end_ord in Eb as (Ha & Hm & _).
    rewrite (proj1 (encode_char_ascii_ends c Hc) _ _ Ec Ha) in Hm.
    rewrite (Hl c s eq_refl) in Hm. discriminate.
  - intros pre b E. destruct s as [|c s _] using rev_ind.
    { now destruct pre. }
    apply Forall_app in Hs as [_ Hc]. inversion Hc as [|? ? Hc' _]; subst.
    rewrite encode_app in E. cbn [encode] in E. rewrite app_nil_r in E.
    destruct (encode_char c) as [|b' r' _] eqn:Ec using rev_ind;
      [now apply encode_char_nonempty in Ec|].
    rewrite app_assoc in E. apply app_inj_tail in E as [_ ->].
    destruct (is_line_end b) eqn:Eb; [|reflexivity].
    apply is_line_end_ord in Eb as (Ha & Hm & _).
    rewrite (proj2 (encode_char_ascii_ends c Hc') _ _ Ec Ha) in Hm.
    rewrite (Hr s c eq_refl) in Hm. discriminate.
Qed.

End NormMore.

(* ------------------------------------------------------------------ *)
(** * More on the clipboard adapters *)

Module AdapterMore.

Import Py PyFacts Clipsync RunFacts SelectorFacts Scenario Notions.

(** ** Decoding and listing *)

Lemma decode_length (bs : bytes) : (length (decode bs) <= length bs)%nat.
Proof.
  assert (G : forall n bs, (length bs <= n)%nat ->
                           (length (decode bs) <= length bs)%nat);
    [|exact (G (length bs) bs (le_n _))].
  clear bs. induction n as [|n IH]; intros [|c1 t1] Hle;
    cbn [length] in Hle; try (cbn; lia).
  cbn [decode].
  repeat match goal with
         | |- (length (if ?c then _ else _) <= _)%nat => destruct c
         | |- (length (match ?t with [] => _ | _ :: _ => _ end) <= _)%nat =>
             destruct t
         end.
  all: cbn [length] in Hle |- *.
  all: try match goal with
           | |- context [length (decode ?t)] =>
               let H := fresh in
               assert (H : (length (decode t) <= length t)%nat)
                 by (apply IH; cbn [length]; lia);
               cbn [length] in H
           end.
  all: lia.
Qed.

(** [decode_utf8] never fails: whatever the bytes, the text has at most
    one code point per byte, holds only code points that can be encoded
    again, and does not end with NUL. *)
Theorem decode_utf8_text (data : bytes) :
  (length (decode_utf8 data) <= length data)%nat
  /\ Forall (fun ch => is_scalar ch = true) (decode_utf8 data)
  /\ (forall s, decode_utf8 data <> s ++ [0]).
Proof.
  split; [|split].
  - unfold decode_utf8. pose proof (rstrip_length [0] (decode data)).
    pose proof (decode_length data). lia.
  - apply Forall_rstrip, decode_scalar.
  - intros s E. pose proof (rstrip_rstripped [0] (decode data) s 0 E) as H.
    discriminate H.
Qed.

Lemma splitlines_acc_one_line (s cur : str) :
  one_line cur = true ->
  Forall (fun line => one_line line = true) (splitlines_acc cur s).
Proof.
  assert (G : forall n s cur, (length s <= n)%nat -> one_line cur = true ->
                Forall (fun line => one_line line = true) (splitlines_acc cur s));
    [|exact (G (length s) s cur (le_n _))].
  clear s cur.
  assert (R : forall cur, one_line cur = true -> one_line (rev cur) = true).
  { intros cur H. unfold one_line in *. rewrite forallb_forall in *.
    intros c Hc. apply H. now apply in_rev. }
  induction n as [|n IH]; intros [|c s] cur Hle Hcur; cbn [length] in Hle; try lia.
  - cbn. destruct cur; repeat constructor. now apply R.
  - cbn. destruct cur; repeat constructor. now apply R.
  - cbn [splitlines_acc]. destruct (is_linebreak c) eqn:Ec.
    + constructor; [now apply R|].
      destruct (c =? 13); [destruct s as [|d s]; [|destruct (d =? 10)]|];
        apply IH; cbn [length] in Hle |- *; (lia || reflexivity).
    + apply IH; [lia|]. unfold one_line in *. cbn [forallb]. now rewrite Ec.
Qed.

Lemma splitlines_one_line (s : str) :
  Forall (fun line => one_line line = true) (splitlines s).
Proof. now apply splitlines_acc_one_line. Qed.

Lemma list_wayland_targets_run wd :
  exists ts wd',
    list_wayland_targets wd = (Ok ts, wd')
    /\ Forall (fun t => one_line t = true) ts
    /\ (checked_call_fails (oracle wd (clock wd) WlPasteList) = true -> ts = [])
    /\ grows wd wd' [Ran WlPasteList].
Proof.
  unfold list_wayland_targets, try_except, bind, subprocess_run, ret.
  destruct (oracle wd (clock wd) WlPasteList) as [rc out|];
    cbn [checked_call_fails andb].
  - destruct (negb (rc =? 0)); do 2 eexists;
      (split; [reflexivity|]); (split; [|split]);
      try apply grows_run;
      try constructor; try (intros; reflexivity); try discriminate.
    apply splitlines_one_line.
  - do 2 eexists. split; [reflexivity|]. split; [constructor|]. split; [reflexivity|].
    apply grows_run.
Qed.

Lemma list_x11_targets_run wd :
  exists ts wd',
    list_x11_targets wd = (Ok ts, wd')
    /\ Forall (fun t => one_line t = true) ts
    /\ (checked_call_fails (oracle wd (clock wd) XclipTargets) = true -> ts = [])
    /\ grows wd wd' [Ran XclipTargets].
Proof.
  unfold list_x11_targets, try_except, bind, subprocess_run, ret.
  destruct (oracle wd (clock wd) XclipTargets) as [rc out|];
    cbn [checked_call_fails andb].
  - destruct (negb (rc =? 0)); do 2 eexists;
      (split; [reflexivity|]); (split; [|split]);
      try apply grows_run;
      try constructor; try (intros; reflexivity); try discriminate.
    apply splitlines_one_line.
  - do 2 eexists. split; [reflexivity|]. split; [constructor|]. split; [reflexivity|].
    apply grows_run.
Qed.

(** The target listings never raise: a listing whose helper raises or
    exits with an error is empty, and otherwise each target is one line of
    the helper's decoded output. *)
Theorem target_listings wd :
  (exists ts wd',
      list_wayland_targets wd = (Ok ts, wd')
      /\ Forall (fun t => one_line t = true) ts
      /\ (checked_call_fails (oracle wd (clock wd) WlPasteList) = true -> ts = [])
      /\ events_since wd wd' = [Ran WlPasteList])
  /\ (exists ts wd',
      list_x11_targets wd = (Ok ts, wd')
      /\ Forall (fun t => one_line t = true) ts
      /\ (checked_call_fails (oracle wd (clock wd) XclipTargets) = true -> ts = [])
      /\ events_since wd wd' = [Ran XclipTargets]).
Proof.
  split.
  - destruct (list_wayland_targets_run wd) as (ts & wd' & E & F & H & G).
    exists ts, wd'. repeat split; try assumption. now apply events_since_grows.
  - destruct (list_x11_targets_run wd) as (ts & wd' & E & F & H & G).
    exists ts, wd'. repeat split; try assumption. now apply events_since_grows.
Qed.

(** ** What the selector can return *)

Lemma image_not_text (m : str) :
  startswith m (lit "image/") = true -> is_text_mime m = false.
Proof.
  destruct m as [|c m]; [discriminate|].
  cbn [startswith lit List.map list_ascii_of_string].
  rewrite andb_true_iff. intros [Hc _]. apply Z.eqb_eq in Hc. subst c.
  reflexivity.
Qed.

Lemma pick_x11_mime_of_kind (targets : list str) :
  pick_x11_mime_of targets <> []
  /\ (is_text_mime (pick_x11_mime_of targets) = true
      \/ (In (pick_x11_mime_of targets) targets
          /\ startswith (pick_x11_mime_of targets) (lit "image/") = true
          /\ is_text_mime (pick_x11_mime_of targets) = false)).
Proof.
  destruct (pick_x11_mime_of_selects targets) as [| |before t after _ _ E _ Ht| | | |];
    try (split; [discriminate | left; reflexivity]).
  split.
  - intros ->. discriminate Ht.
  - right. repeat split; [|exact Ht|now apply image_not_text].
    rewrite E. apply in_or_app. right. now left.
Qed.

(** The MIME either selector returns is never empty, and it is either a
    textual MIME or an advertised target that starts with image/, which is
    not textual. *)
Theorem selected_mime_kind (targets : list str) :
  let m := pick_x11_mime_of targets in
  pick_wayland_mime_of targets = m
  /\ m <> []
  /\ (is_text_mime m = true
      \/ (In m targets /\ startswith m (lit "image/") = true
          /\ is_text_mime m = false)).
Proof.
  cbv zeta. split; [apply pick_wayland_mime_of_x11 | apply pick_x11_mime_of_kind].
Qed.

(** ** Reading a clipboard *)





(** When the target listing raises or exits with an error, the read is
    still made, asking for text/plain;charset=utf-8. *)
Theorem failed_listing_reads_default wd :
  (checked_call_fails (oracle wd (clock wd) WlPasteList) = true ->
   exists w wd',
     get_wayland_clipboard wd = (Ok w, wd')
     /\ events_since wd wd' = [Ran WlPasteList; Ran (WlPaste text_plain_utf8)]
                              ++ (match snd w with
                                  | [] => [Printed MsgTraceback]
                                  | _ :: _ => []
                                  end)
     /\ (snd w = text_plain_utf8 \/ w = ([], [])))
  /\ (checked_call_fails (oracle wd (clock wd) XclipTargets) = true ->
      exists x wd',
        get_x11_clipboard wd = (Ok x, wd')
        /\ events_since wd wd' = [Ran XclipTargets; Ran (XclipOut text_plain_utf8)]
                                 ++ (match snd x with
                                     | [] => [Printed MsgTraceback]
                                     | _ :: _ => []
                                     end)
        /\ (snd x = text_plain_utf8 \/ x = ([], []))).
Proof.
  split; intros Hf.
  - destruct (list_wayland_targets_run wd) as (ts & wd1 & E & _ & Hts & G).
    specialize (Hts Hf). subst ts.
    unfold get_wayland_clipboard, pick_wayland_mime, bind at 1 2. rewrite E.
    unfold ret at 1. unfold try_except, bind, subprocess_run, print, emit, ret.
    change (pick_wayland_mime_of []) with text_plain_utf8.
    destruct (oracle wd1 (clock wd1) (WlPaste text_plain_utf8)) as [rc out|];
      cbn [andb]; do 2 eexists; (split; [reflexivity|]); (split; [|auto]).
    + apply events_since_grows.
      exact (grows_trans _ _ _ [_] [_] G (grows_run wd1 _)).
    + apply events_since_grows.
      exact (grows_trans _ _ _ [_] [_; _] G
               (grows_trans _ _ _ [_] [_] (grows_run wd1 _) (grows_emit _ _))).
  - destruct (list_x11_targets_run wd) as (ts & wd1 & E & _ & Hts & G).
    specialize (Hts Hf). subst ts.
    unfold get_x11_clipboard, pick_x11_mime, bind at 1 2. rewrite E.
    unfold ret at 1. unfold try_except, bind, subprocess_run, print, emit, ret.
    change (pick_x11_mime_of []) with text_plain_utf8.
    destruct (oracle wd1 (clock wd1) (XclipOut text_plain_utf8)) as [rc out|];
      cbn [andb]; do 2 eexists; (split; [reflexivity|]); (split; [|auto]).
    + apply events_since_grows.
      exact (grows_trans _ _ _ [_] [_] G (grows_run wd1 _)).
    + apply events_since_grows.
      exact (grows_trans _ _ _ [_] [_; _] G
               (grows_trans _ _ _ [_] [_] (grows_run wd1 _) (grows_emit _ _))).
Qed.

Lemma failed_listing_reads_default_witness :
  exists w wd',
    get_wayland_clipboard listing_broken = (Ok w, wd')
    /\ events_since listing_broken wd'
       = [Ran WlPasteList; Ran (WlPaste text_plain_utf8)]
         ++ (match snd w with
             | [] => [Printed MsgTraceback]
             | _ :: _ => []
             end)
    /\ (snd w = text_plain_utf8 \/ w = ([], [])).
Proof.
  apply (proj1 (failed_listing_reads_default listing_broken)). reflexivity.
Defined.

(** ** Writing a clipboard *)

(** A write never raises, whatever its helper does.  It is one process
    call with the data as given: xclip gets the MIME as given, wl-copy gets
    text/plain;charset=utf-8 for a textual MIME and the MIME as given
    otherwise; a helper that raises or exits with an error only leaves a
    traceback. *)
Theorem clipboard_writes (data : bytes) (mime : str) wd :
  (exists wd',
      set_x11_clipboard data mime wd = (Ok tt, wd')
      /\ clock wd' = S (clock wd)
      /\ events_since wd wd'
         = Ran (XclipIn mime data)
           :: (if checked_call_fails (oracle wd (clock wd) (XclipIn mime data))
               then [Printed MsgTraceback] else []))
  /\ (exists wd',
      set_wayland_clipboard data mime wd = (Ok tt, wd')
      /\ clock wd' = S (clock wd)
      /\ let target := if is_text_mime mime then text_plain_utf8 else mime in
         events_since wd wd'
         = Ran (WlCopy target data)
           :: (if checked_call_fails (oracle wd (clock wd) (WlCopy target data))
               then [Printed MsgTraceback] else [])).
Proof.
  split.
  - unfold set_x11_clipboard, try_except, bind, subprocess_run, ret, print, emit.
    destruct (oracle wd (clock wd) (XclipIn mime data)) as [rc out|];
      cbn [checked_call_fails andb]; [destruct (negb (rc =? 0))|];
      eexists; (split; [reflexivity|]); (split; [reflexivity|]);
      apply events_since_grows; unfold grows; cbn [trace oracle html_parser];
      rewrite <- ?app_assoc; auto.
  - unfold set_wayland_clipboard, try_except, bind, subprocess_run, ret, print, emit.
    cbv zeta. fold text_plain_utf8.
    destruct (oracle wd (clock wd)
                (WlCopy (if is_text_mime mime then text_plain_utf8 else mime) data))
      as [rc out|];
      cbn [checked_call_fails andb]; [destruct (negb (rc =? 0))|];
      eexists; (split; [reflexivity|]); (split; [reflexivity|]);
      apply events_since_grows; unfold grows; cbn [trace oracle html_parser];
      rewrite <- ?app_assoc; auto.
Qed.

End AdapterMore.

(* ------------------------------------------------------------------ *)
(** * More on the engine *)

Module EngineMore.

Import Py PyFacts Clipsync RunFacts Scenario Notions EngineFacts.

(** ** One pass *)

Lemma outcome_shape st w x st' evs :
  outcome st w x st' evs ->
  (writes_in evs = [])
  \/ (writes_in evs = [(X11, fst w, snd w)]
      /\ st' = mkState (fst w) (snd w) (fst w) (snd w))
  \/ (writes_in evs
      = [(Wayland, fst x, if is_text_mime (snd x) then text_plain_utf8 else snd x)]
      /\ st' = mkState (fst x) (snd x) (fst x) (snd x)).
Proof.
  destruct 1; cbn [writes_in write_of];
    rewrite ?after_write_writes by assumption; auto.
Qed.

(** A pass writes at most once.  If it writes to X11, it writes the
    Wayland snapshot under its own MIME; if it writes to Wayland, it writes
    the data of the X11 snapshot, under text/plain;charset=utf-8 when the
    snapshot's MIME is textual.  After a write both sides are remembered with
    the snapshot of the side that was copied. *)
Theorem pass_writes_once st wd :
  exists w x wd1 st' wd',
    read_snapshots wd = (Ok (w, x), wd1)
    /\ cycle st wd = (Ok st', wd')
    /\ (writes_in (events_since wd wd') = []
        \/ (writes_in (events_since wd wd') = [(X11, fst w, snd w)]
            /\ st' = mkState (fst w) (snd w) (fst w) (snd w))
        \/ (writes_in (events_since wd wd')
            = [(Wayland, fst x,
                if is_text_mime (snd x) then text_plain_utf8 else snd x)]
            /\ st' = mkState (fst x) (snd x) (fst x) (snd x))).
Proof.
  destruct (read_snapshots_total wd) as ([w x] & wd1 & R).
  destruct (cycle_outcome st wd w x wd1 R) as (st' & wd' & evs & E & O & W & _).
  exists w, x, wd1, st', wd'. rewrite W. repeat split; try assumption.
  exact (outcome_shape _ _ _ _ _ O).
Qed.

(** When the two snapshots have the same comparison key and at most one
    side's raw data changed, the pass writes nothing: it only remembers the
    non-empty sides as they are now. *)
Theorem equal_keys_no_write st wd w x wd1 :
  read_snapshots wd = (Ok (w, x), wd1) ->
  key w = key x ->
  fst w = last_w_data st \/ fst x = last_x_data st ->
  exists wd',
    cycle st wd = (Ok (refresh st w x), wd')
    /\ writes_in (events_since wd wd') = [].
Proof.
  intros R K U.
  destruct (cycle_outcome st wd w x wd1 R) as (st' & wd' & evs & E & O & W & _).
  exists wd'. rewrite W, E.
  destruct O; unfold rule_A_applies, rule_B_applies, rule_C_applies in *;
    try (exfalso; intuition congruence).
  split; reflexivity.
Qed.

Lemma equal_keys_no_write_witness :
  exists wd',
    cycle (mkState (blit "a") text_plain (blit "a") text_plain) conflict_world
    = (Ok (refresh (mkState (blit "a") text_plain (blit "a") text_plain)
                   (a_lf, text_plain) (blit "a", text_plain)), wd')
    /\ writes_in (events_since conflict_world wd') = [].
Proof.
  apply (equal_keys_no_write
           (mkState (blit "a") text_plain (blit "a") text_plain) conflict_world
           (a_lf, text_plain) (blit "a", text_plain)
           (snd (read_snapshots conflict_world))).
  - vm_compute. reflexivity.
  - vm_compute. reflexivity.
  - right. reflexivity.
Defined.

Lemma norm_data_nil (mime : str) : norm_data [] mime = [].
Proof. unfold norm_data. now destruct (is_text_mime mime). Qed.

(** On the first pass after start-up, when the two snapshots have
    different comparison keys, Wayland wins if it holds any data: its
    snapshot is written to X11.  Only when Wayland's data are empty is the
    X11 snapshot written to Wayland. *)
Theorem first_pass_priority wd w x wd1 :
  read_snapshots wd = (Ok (w, x), wd1) ->
  key w <> key x ->
  exists wd',
    cycle initial_state wd
    = (Ok (match fst w with
           | [] => mkState (fst x) (snd x) (fst x) (snd x)
           | _ :: _ => mkState (fst w) (snd w) (fst w) (snd w)
           end), wd')
    /\ writes_in (events_since wd wd')
       = [match fst w with
          | [] => (Wayland, fst x,
                   if is_text_mime (snd x) then text_plain_utf8 else snd x)
          | _ :: _ => (X11, fst w, snd w)
          end].
Proof.
  intros R K.
  destruct (cycle_outcome initial_state wd w x wd1 R)
    as (st' & wd' & evs & E & O & W & _).
  exists wd'. rewrite W, E.
  assert (Hx : fst w = [] -> fst x <> []).
  { intros Hw Hx. apply K. unfold key. now rewrite Hw, Hx, !norm_data_nil. }
  destruct O; unfold rule_A_applies, rule_B_applies, rule_C_applies in *;
    cbn [initial_state last_w_data last_x_data] in *;
    cbn [writes_in write_of]; rewrite ?after_write_writes by assumption.
  all: destruct (fst w) eqn:Ew; try (split; reflexivity);
    try (exfalso; intuition congruence).
  all: try (exfalso; specialize (Hx eq_refl); intuition congruence).
Qed.

Lemma first_pass_priority_witness :
  exists wd',
    cycle initial_state one_then_synced
    = (Ok (match fst (blit "one", text_plain) with
           | [] => mkState (fst (blit "two", text_plain)) (snd (blit "two", text_plain))
                           (fst (blit "two", text_plain)) (snd (blit "two", text_plain))
           | _ :: _ => mkState (fst (blit "one", text_plain)) (snd (blit "one", text_plain))
                               (fst (blit "one", text_plain)) (snd (blit "one", text_plain))
           end), wd')
    /\ writes_in (events_since one_then_synced wd')
       = [match fst (blit "one", text_plain) with
          | [] => (Wayland, fst (blit "two", text_plain),
                   if is_text_mime (snd (blit "two", text_plain))
                   then text_plain_utf8 else snd (blit "two", text_plain))
          | _ :: _ => (X11, fst (blit "one", text_plain), snd (blit "one", text_plain))
          end].
Proof.
  apply (first_pass_priority one_then_synced
           (blit "one", text_plain) (blit "two", text_plain)
           (snd (read_snapshots one_then_synced))).
  - vm_compute. reflexivity.
  - vm_compute. discriminate.
Defined.

(** ** The HTML step *)

Lemma str_eqb_false (a b : str) : str_eqb a b = false <-> a <> b.
Proof.
  rewrite <- str_eqb_eq. destruct (str_eqb a b); split; congruence.
Qed.

Lemma strip_html_wayland_success d t wd :
  html_parser wd (decode_utf8 d) = Some t ->
  strip_html_wayland (d, text_html) wd
  = (Ok (encode t, text_plain_utf8), printed MsgStrippedWayland wd).
Proof.
  intros H. unfold strip_html_wayland. fold text_html.
  replace (str_eqb text_html text_html) with true by reflexivity.
  unfold try_except, bind, soup_get_text. rewrite H. reflexivity.
Qed.

Lemma strip_html_x11_success d t wd :
  html_parser wd (decode_utf8 d) = Some t ->
  strip_html_x11 (d, text_html) wd
  = (Ok (encode t, text_plain_utf8), printed MsgStrippedX11 wd).
Proof.
  intros H. unfold strip_html_x11. fold text_html.
  replace (str_eqb text_html text_html) with true by reflexivity.
  unfold try_except, bind, soup_get_text. rewrite H. reflexivity.
Qed.

Lemma strip_html_wayland_not_html w wd :
  snd w <> text_html -> strip_html_wayland w wd = (Ok w, wd).
Proof.
  destruct w as [d m]. cbn [snd]. intros H. apply str_eqb_false in H.
  unfold strip_html_wayland. fold text_html. now rewrite H.
Qed.

Lemma strip_html_x11_not_html x wd :
  snd x <> text_html -> strip_html_x11 x wd = (Ok x, wd).
Proof.
  destruct x as [d m]. cbn [snd]. intros H. apply str_eqb_false in H.
  unfold strip_html_x11. fold text_html. now rewrite H.
Qed.

(** As long as the HTML parser does not raise, no snapshot the rules see
    has MIME text/html, so nothing is written to either clipboard under
    text/html: a Wayland read with MIME text/html is replaced by its
    extracted text, encoded as UTF-8 and labelled text/plain;charset=utf-8. *)
Theorem html_never_propagated st wd :
  (forall s, html_parser wd s <> None) ->
  exists w x wd1 st' wd',
    read_snapshots wd = (Ok (w, x), wd1)
    /\ cycle st wd = (Ok st', wd')
    /\ snd w <> text_html /\ snd x <> text_html
    /\ (forall side data, ~ In (side, data, text_html) (writes_in (events_since wd wd')))
    /\ (forall d w0 wd0, get_wayland_clipboard wd = (Ok w0, wd0) ->
          w0 = (d, text_html) ->
          exists t, html_parser wd (decode_utf8 d) = Some t
                    /\ w = (encode t, text_plain_utf8)).
Proof.
  intros Hp.
  destruct (get_wayland_clipboard_total wd) as (w0 & wda & Ew).
  destruct (get_x11_clipboard_total wda) as (x0 & wdb & Ex).
  destruct (get_wayland_clipboard_quiet _ _ _ Ew) as (e1 & G1 & _).
  destruct (get_x11_clipboard_quiet _ _ _ Ex) as (e2 & G2 & _).
  assert (Pb : html_parser wdb = html_parser wd)
    by (rewrite (grows_parser _ _ _ G2); exact (grows_parser _ _ _ G1)).
  assert (Sw : exists w, strip_html_wayland w0 wdb
                         = (Ok w, match html_parser wd (decode_utf8 (fst w0)) with
                                  | Some _ => if str_eqb (snd w0) text_html
                                              then printed MsgStrippedWayland wdb else wdb
                                  | None => wdb
                                  end)
                         /\ snd w <> text_html
                         /\ (forall d, w0 = (d, text_html) ->
                               exists t, html_parser wd (decode_utf8 d) = Some t
                                         /\ w = (encode t, text_plain_utf8))).
  { destruct w0 as [d m]. cbn [fst snd].
    destruct (html_parser wd (decode_utf8 d)) as [t|] eqn:Et; [|now apply Hp in Et].
    destruct (str_eqb m text_html) eqn:Em.
    - apply str_eqb_eq in Em. subst m. exists (encode t, text_plain_utf8).
      rewrite (strip_html_wayland_success d t wdb) by (rewrite Pb; exact Et).
      repeat split; [discriminate|]. intros d' [= <-]. eauto.
    - apply str_eqb_false in Em. exists (d, m).
      rewrite strip_html_wayland_not_html by assumption.
      repeat split; [assumption|]. intros d' [= _ ->]. congruence. }
  destruct Sw as (w & Es & Hw & Hred).
  remember (match html_parser wd (decode_utf8 (fst w0)) with
            | Some _ => if str_eqb (snd w0) text_html
                        then printed MsgStrippedWayland wdb else wdb
            | None => wdb
            end) as wdc eqn:Ec.
  assert (Pc : html_parser wdc = html_parser wd).
  { subst wdc. destruct (html_parser wd (decode_utf8 (fst w0)));
      [destruct (str_eqb (snd w0) text_html)|]; exact Pb. }
  assert (Sx : exists x wdd, strip_html_x11 x0 wdc = (Ok x, wdd) /\ snd x <> text_html).
  { destruct x0 as [d m].
    destruct (str_eqb m text_html) eqn:Em.
    - apply str_eqb_eq in Em. subst m.
      destruct (html_parser wd (decode_utf8 d)) as [t|] eqn:Et; [|now apply Hp in Et].
      do 2 eexists. rewrite (strip_html_x11_success d t wdc) by (rewrite Pc; exact Et).
      split; [reflexivity | discriminate].
    - apply str_eqb_false in Em. exists (d, m), wdc.
      now rewrite strip_html_x11_not_html. }
  destruct Sx as (x & wdd & Esx & Hx).
  assert (R : read_snapshots wd = (Ok (w, x), wdd)).
  { unfold read_snapshots, bind, ret. rewrite Ew; cbv beta iota.
    rewrite Ex; cbv beta iota. rewrite Es; cbv beta iota. now rewrite Esx. }
  destruct (cycle_outcome st wd w x wdd R) as (st' & wd' & evs & E & O & W & _).
  exists w, x, wdd, st', wd'. repeat split; try assumption.
  - intros side data. rewrite W.
    destruct (outcome_shape _ _ _ _ _ O) as [-> | [[-> _] | [-> _]]]; cbn [In].
    + tauto.
    + intros [[= _ _ Hm] | []]. congruence.
    + intros [[= _ _ Hm] | []].
      destruct (is_text_mime (snd x)); [discriminate Hm | congruence].
  - intros d w0' wd0 Ew' ->. rewrite Ew in Ew'. injection Ew' as -> _.
    now apply Hred.
Qed.

Lemma html_never_propagated_witness :
  exists w x wd1 st' wd',
    read_snapshots html_accepted = (Ok (w, x), wd1)
    /\ cycle initial_state html_accepted = (Ok st', wd')
    /\ snd w <> text_html /\ snd x <> text_html
    /\ (forall side data,
          ~ In (side, data, text_html)
               (writes_in (events_since html_accepted wd')))
    /\ (forall d w0 wd0, get_wayland_clipboard html_accepted = (Ok w0, wd0) ->
          w0 = (d, text_html) ->
          exists t, html_parser html_accepted (decode_utf8 d) = Some t
                    /\ w = (encode t, text_plain_utf8)).
Proof.
  apply (html_never_propagated initial_state html_accepted). discriminate.
Defined.

(** ** The work of one pass *)

Lemma bounded_ret {A} (a : A) : bounded 0 (ret a).
Proof.
  intros wd r wd' E. injection E as <- <-. exists [].
  split; [apply grows_refl | split; [reflexivity | lia]].
Qed.

Lemma bounded_weaken {A} (k k' : nat) (m : M A) :
  (k <= k')%nat -> bounded k m -> bounded k' m.
Proof.
  intros Hk H wd r wd' E. destruct (H _ _ _ E) as (evs & G & S & C).
  exists evs. split; [exact G | split; [exact S | lia]].
Qed.

Lemma bounded_bind {A B} (k1 k2 : nat) (m : M A) (f : A -> M B) :
  bounded k1 m -> (forall a, bounded k2 (f a)) -> bounded (k1 + k2) (bind m f).
Proof.
  intros Hm Hf wd r wd' E. unfold bind in E.
  destruct (m wd) as [[a|] wd1] eqn:Em.
  - destruct (Hm _ _ _ Em) as (e1 & G1 & S1 & C1).
    destruct (Hf a _ _ _ E) as (e2 & G2 & S2 & C2).
    exists (e1 ++ e2). split; [|split; [|lia]].
    + eapply grows_trans; eassumption.
    + now rewrite forallb_app, S1, S2.
  - injection E as <- <-. destruct (Hm _ _ _ Em) as (e1 & G1 & S1 & C1).
    exists e1. split; [exact G1 | split; [exact S1 | lia]].
Qed.

Lemma bounded_try {A} (k1 k2 : nat) (body handler : M A) :
  bounded k1 body -> bounded k2 handler ->
  bounded (k1 + k2) (try_except body handler).
Proof.
  intros Hb Hh wd r wd' E. unfold try_except in E.
  destruct (body wd) as [[a|] wd1] eqn:Eb.
  - injection E as <- <-. destruct (Hb _ _ _ Eb) as (e1 & G1 & S1 & C1).
    exists e1. split; [exact G1 | split; [exact S1 | lia]].
  - destruct (Hb _ _ _ Eb) as (e1 & G1 & S1 & C1).
    destruct (Hh _ _ _ E) as (e2 & G2 & S2 & C2).
    exists (e1 ++ e2). split; [|split; [|lia]].
    + eapply grows_trans; eassumption.
    + now rewrite forallb_app, S1, S2.
Qed.

Lemma bounded_print msg : is_sync_event (Printed msg) = true -> bounded 0 (print msg).
Proof.
  intros Hs wd r wd' E. unfold print, emit in E. injection E as <- <-.
  exists [Printed msg]. split; [apply grows_emit | split; cbn [clock forallb]; [|lia]].
  now rewrite Hs.
Qed.

Lemma bounded_run c check :
  is_sync_event (Ran c) = true -> bounded 1 (subprocess_run c check).
Proof.
  intros Hs wd r wd' E. exists [Ran c].
  unfold subprocess_run in E.
  destruct (oracle wd (clock wd) c) as [rc out|];
    [destruct (check && negb (rc =? 0))|]; injection E as <- <-;
    (split; [apply grows_run | split; cbn [clock forallb]; [now rewrite Hs | lia]]).
Qed.

Lemma bounded_soup s : bounded 0 (soup_get_text s).
Proof.
  intros wd r wd' E. unfold soup_get_text in E.
  destruct (html_parser wd s); injection E as <- <-;
    (exists []; split; [apply grows_refl | split; [reflexivity | lia]]).
Qed.

Lemma get_wayland_clipboard_bounded : bounded 2 get_wayland_clipboard.
Proof.
  unfold get_wayland_clipboard, pick_wayland_mime, list_wayland_targets.
  apply (bounded_bind 1 1).
  - apply (bounded_bind 1 0); [|intros; apply bounded_ret].
    apply (bounded_try 1 0); [|apply bounded_ret].
    apply (bounded_bind 1 0); [now apply bounded_run | intros; apply bounded_ret].
  - intros mime. apply (bounded_try 1 0).
    + apply (bounded_bind 1 0); [now apply bounded_run | intros; apply bounded_ret].
    + apply (bounded_bind 0 0); [now apply bounded_print | intros; apply bounded_ret].
Qed.

Lemma get_x11_clipboard_bounded : bounded 2 get_x11_clipboard.
Proof.
  unfold get_x11_clipboard, pick_x11_mime, list_x11_targets.
  apply (bounded_bind 1 1).
  - apply (bounded_bind 1 0); [|intros; apply bounded_ret].
    apply (bounded_try 1 0); [|apply bounded_ret].
    apply (bounded_bind 1 0); [now apply bounded_run | intros; apply bounded_ret].
  - intros mime. apply (bounded_try 1 0).
    + apply (bounded_bind 1 0); [now apply bounded_run | intros; apply bounded_ret].
    + apply (bounded_bind 0 0); [now apply bounded_print | intros; apply bounded_ret].
Qed.

Lemma strip_html_wayland_bounded w : bounded 2 (strip_html_wayland w).
Proof.
  destruct w as [d m]. unfold strip_html_wayland.
  destruct (str_eqb m (lit "text/html")).
  - apply (bounded_try 0 2).
    + apply (bounded_bind 0 0); [apply bounded_soup | intros t].
      apply (bounded_bind 0 0); [now apply bounded_print | intros; apply bounded_ret].
    + apply (bounded_bind 0 2); [now apply bounded_print|].
      intros _. apply get_wayland_clipboard_bounded.
  - apply (bounded_weaken 0 2); [lia | apply bounded_ret].
Qed.

Lemma strip_html_x11_bounded x : bounded 2 (strip_html_x11 x).
Proof.
  destruct x as [d m]. unfold strip_html_x11.
  destruct (str_eqb m (lit "text/html")).
  - apply (bounded_try 0 2).
    + apply (bounded_bind 0 0); [apply bounded_soup | intros t].
      apply (bounded_bind 0 0); [now apply bounded_print | intros; apply bounded_ret].
    + apply (bounded_bind 0 2); [now apply bounded_print|].
      intros _. apply get_x11_clipboard_bounded.
  - apply (bounded_weaken 0 2); [lia | apply bounded_ret].
Qed.

Lemma read_snapshots_bounded : bounded 8 read_snapshots.
Proof.
  unfold read_snapshots.
  apply (bounded_bind 2 6); [apply get_wayland_clipboard_bounded | intros w].
  apply (bounded_bind 2 4); [apply get_x11_clipboard_bounded | intros x].
  apply (bounded_bind 2 2); [apply strip_html_wayland_bounded | intros w'].
  apply (bounded_bind 2 0); [apply strip_html_x11_bounded | intros x'].
  apply bounded_ret.
Qed.

Lemma set_x11_clipboard_bounded data mime : bounded 1 (set_x11_clipboard data mime).
Proof.
  unfold set_x11_clipboard. apply (bounded_try 1 0); [|now apply bounded_print].
  apply (bounded_bind 1 0); [now apply bounded_run | intros; apply bounded_ret].
Qed.

Lemma set_wayland_clipboard_bounded data mime :
  bounded 1 (set_wayland_clipboard data mime).
Proof.
  unfold set_wayland_clipboard. apply (bounded_try 1 0); [|now apply bounded_print].
  apply (bounded_bind 1 0); [now apply bounded_run | intros; apply bounded_ret].
Qed.

Lemma apply_rules_bounded st w x : bounded 1 (apply_rules st w x).
Proof.
  destruct w as [w_data w_mime], x as [x_data x_mime]. unfold apply_rules.
  repeat match goal with
         | |- bounded _ (if ?c then _ else _) => destruct c
         end.
  all: repeat first
    [ apply bounded_ret
    | apply (bounded_weaken 0 1); [lia | apply bounded_ret]
    | apply set_x11_clipboard_bounded
    | apply set_wayland_clipboard_bounded
    | apply (bounded_bind 1 0); [|intros; apply bounded_ret]
    | apply (bounded_bind 0 1); [now apply bounded_print | intros]
    | apply (bounded_weaken 0 1); [lia|]; apply (bounded_bind 0 0); [|intros]
    | match goal with
      | |- bounded _ (if ?c then _ else _) => destruct c
      end ].
Qed.

Lemma cycle_bounded st : bounded 9 (cycle st).
Proof.
  unfold cycle. apply (bounded_bind 8 1); [apply read_snapshots_bounded|].
  intros wx. apply apply_rules_bounded.
Qed.

(** One pass runs at most nine helper processes (up to eight for reading,
    re-reads after a failed HTML reduction included, and one write), never
    [which] or [clipnotify], and does not change how the world answers. *)
Theorem pass_is_bounded st wd :
  exists r wd',
    cycle st wd = (r, wd')
    /\ (clock wd <= clock wd' <= clock wd + 9)%nat
    /\ forallb is_sync_event (events_since wd wd') = true
    /\ oracle wd' = oracle wd
    /\ html_parser wd' = html_parser wd.
Proof.
  destruct (cycle st wd) as [r wd'] eqn:E. exists r, wd'. split; [reflexivity|].
  destruct (cycle_bounded st _ _ _ E) as (evs & G & S & C).
  rewrite (events_since_grows _ _ _ G). destruct G as (_ & Go & Gp). auto.
Qed.

(** ** The loop and the start-up *)

Lemma wait_for_change_grows wd r wd' :
  wait_for_change wd = (r, wd') -> grows wd wd' [Ran Clipnotify] /\ clock wd' = S (clock wd).
Proof.
  unfold wait_for_change. destruct (oracle wd (clock wd) Clipnotify);
    intros [= <- <-]; split; try apply grows_run; reflexivity.
Qed.

Lemma loop_run n : forall st wd,
  (exists st' wd' evs, loop n st wd = (Ok st', wd') /\ grows wd wd' evs)
  \/ (exists wd' evs,
        loop n st wd = (Raised, wd')
        /\ grows wd wd' (evs ++ [Ran Clipnotify])
        /\ oracle wd (pred (clock wd')) Clipnotify = Failed).
Proof.
  induction n as [|n IH]; intros st wd.
  { left. exists st, wd, []. split; [reflexivity | apply grows_refl]. }
  destruct (wait_for_change wd) as [[[]|] wd1] eqn:Ew.
  - destruct (wait_for_change_grows _ _ _ Ew) as [G1 _].
    destruct (cycle_total st wd1) as (st1 & wd2 & Ec).
    destruct (cycle_bounded st _ _ _ Ec) as (e2 & G2 & _ & _).
    assert (L : loop (S n) st wd = loop n st1 wd2)
      by (cbn [loop]; unfold bind; now rewrite Ew, Ec).
    rewrite L.
    destruct (IH st1 wd2) as [(st' & wd' & e3 & E & G3) | (wd' & evs & E & G3 & Hf)].
    + left. exists st', wd', ([Ran Clipnotify] ++ e2 ++ e3). split; [exact E|].
      exact (grows_trans _ _ _ _ _ G1 (grows_trans _ _ _ _ _ G2 G3)).
    + right. exists wd', ([Ran Clipnotify] ++ e2 ++ evs).
      split; [exact E|]. split.
      * pose proof (grows_trans _ _ _ _ _ G1 (grows_trans _ _ _ _ _ G2 G3)) as Gt.
        now rewrite <- !app_assoc in *.
      * destruct G1 as (_ & Ho1 & _). destruct G2 as (_ & Ho2 & _).
        now rewrite <- Ho1, <- Ho2.
  - right. destruct (wait_for_change_grows _ _ _ Ew) as [G1 C1].
    assert (L : loop (S n) st wd = (Raised, wd1))
      by (cbn [loop]; unfold bind; now rewrite Ew).
    exists wd1, []. split; [exact L|]. split; [exact G1|].
    rewrite C1. cbn [pred]. unfold wait_for_change in Ew.
    destruct (oracle wd (clock wd) Clipnotify); [discriminate | reflexivity].
Qed.

(** The loop leaves only by an exception from starting [clipnotify]:
    every other failure is absorbed by the pass.  So the loop runs any
    number of turns when [clipnotify] can always be started. *)
Theorem loop_exit n st wd :
  ((exists st' wd', loop n st wd = (Ok st', wd'))
   \/ (exists wd' evs,
         loop n st wd = (Raised, wd')
         /\ events_since wd wd' = evs ++ [Ran Clipnotify]
         /\ oracle wd (pred (clock wd')) Clipnotify = Failed))
  /\ ((forall k, oracle wd k Clipnotify <> Failed) ->
      exists st' wd', loop n st wd = (Ok st', wd')).
Proof.
  split.
  - destruct (loop_run n st wd) as [(st' & wd' & _ & E & _) | (wd' & evs & E & Gr & Hf)];
      [left; eauto|].
    right. exists wd', evs. now rewrite (events_since_grows _ _ _ Gr).
  - intros Hok.
    destruct (loop_run n st wd) as [(st' & wd' & _ & E & _) | (wd' & evs & E & Gr & Hf)];
      [eauto|].
    now apply Hok in Hf.
Qed.

Lemma loop_exit_witness :
  exists st' wd', loop 3 initial_state one_then_synced = (Ok st', wd').
Proof.
  apply (proj2 (loop_exit 3 initial_state one_then_synced)). discriminate.
Defined.

Lemma found_from_cons wd wd1 t tools out :
  oracle wd (clock wd) (Which t) = Exited 0 out ->
  oracle wd1 = oracle wd -> clock wd1 = S (clock wd) ->
  found_from wd1 (clock wd1) tools ->
  found_from wd (clock wd) (t :: tools).
Proof.
  intros H0 Ho Hc F [|i] u; cbn [nth_error].
  - intros [= <-]. exists out. now rewrite Nat.add_0_r.
  - intros Hu. destruct (F i u Hu) as (o & Eo). exists o.
    rewrite Ho, Hc in Eo. now rewrite Nat.add_succ_r.
Qed.

Lemma check_tools_run tools : forall wd r wd1,
  check_tools tools wd = (r, wd1) ->
  match r with
  | Ok None =>
      grows wd wd1 (List.map (fun t => Ran (Which t)) tools)
      /\ found_from wd (clock wd) tools
  | Ok (Some tool) =>
      exists before after,
        tools = before ++ tool :: after
        /\ grows wd wd1 (List.map (fun t => Ran (Which t)) (before ++ [tool]))
        /\ found_from wd (clock wd) before
        /\ exists rc out,
             oracle wd (clock wd + length before) (Which tool) = Exited rc out
             /\ rc <> 0%Z
  | Raised =>
      exists before tool after,
        tools = before ++ tool :: after
        /\ found_from wd (clock wd) before
        /\ oracle wd (clock wd + length before) (Which tool) = Failed
  end.
Proof.
  induction tools as [|t tools IH]; intros wd r wd1.
  - intros [= <- <-]. split; [apply grows_refl|]. intros [|i] u; discriminate.
  - cbn [check_tools]. unfold bind at 1, command_exists, bind at 1, subprocess_run.
    destruct (oracle wd (clock wd) (Which t)) as [rc out|] eqn:Eo; cbn [andb].
    2:{ intros [= <- _]. exists [], t, tools. split; [reflexivity|]. split.
        - intros [|i] u; discriminate.
        - cbn [length]. now rewrite Nat.add_0_r. }
    unfold ret at 1. cbn [fst]. destruct (rc =? 0)%Z eqn:Erc.
    + apply Z.eqb_eq in Erc. subst rc.
      intros E. specialize (IH _ _ _ E).
      match type of E with
      | check_tools tools ?w = _ =>
          assert (Fc : forall l, found_from w (clock w) l ->
                                 found_from wd (clock wd) (t :: l))
            by (intros l; apply (found_from_cons wd w t l out Eo); reflexivity);
          assert (Ho : oracle w = oracle wd) by reflexivity;
          assert (Hc : clock w = S (clock wd)) by reflexivity;
          pose proof (grows_run wd (Which t)) as G0;
          fold w in G0 || idtac
      end.
      destruct r as [[tool|]|].
      * destruct IH as (before & after & -> & G & F & rc & o & Ef & Hrc).
        exists (t :: before), after. split; [reflexivity|].
        split; [exact (grows_trans _ _ _ [_] _ G0 G)|].
        split; [exact (Fc _ F)|]. exists rc, o. split; [|exact Hrc].
        rewrite Ho, Hc in Ef. cbn [length]. now rewrite Nat.add_succ_r.
      * destruct IH as (G & F).
        split; [exact (grows_trans _ _ _ [_] _ G0 G) | exact (Fc _ F)].
      * destruct IH as (before & tool & after & -> & F & Ef).
        exists (t :: before), tool, after. split; [reflexivity|].
        split; [exact (Fc _ F)|].
        rewrite Ho, Hc in Ef. cbn [length]. now rewrite Nat.add_succ_r.
    + apply Z.eqb_neq in Erc. intros [= <- <-]. exists [], tools.
      split; [reflexivity|]. split; [apply grows_run|]. split.
      * intros [|i] u; discriminate.
      * exists rc, out. cbn [length]. rewrite Nat.add_0_r. auto.
Qed.

(** [main] checks the four tools in order, one [which] call each, and
    stops at the first one [which] does not find.  It returns without
    entering the loop exactly as follows: every tool before the reported one
    was found ([which] exited with 0), the reported one was not ([which]
    exited with another code), its name is printed, and neither
    [clipnotify] nor a clipboard helper was run.  It enters the loop only
    after [which] found all four.  It ends with an exception only when a
    [which] call itself raises, or when all four were found and
    [clipnotify] cannot be started. *)
Theorem main_start_up n wd r wd' :
  main n wd = (r, wd') ->
  match r with
  | Ok None =>
      exists before tool after,
        required_tools = before ++ tool :: after
        /\ found_from wd (clock wd) before
        /\ (exists rc out,
              oracle wd (clock wd + length before) (Which tool) = Exited rc out
              /\ rc <> 0%Z)
        /\ events_since wd wd'
           = List.map (fun t => Ran (Which t)) (before ++ [tool])
             ++ [Printed (MsgToolMissing tool)]
  | Ok (Some _) =>
      found_from wd (clock wd) required_tools
      /\ exists evs,
           events_since wd wd'
           = List.map (fun t => Ran (Which t)) required_tools
             ++ Printed MsgStarting :: evs
  | Raised =>
      (exists before tool after,
         required_tools = before ++ tool :: after
         /\ found_from wd (clock wd) before
         /\ oracle wd (clock wd + length before) (Which tool) = Failed)
      \/ (found_from wd (clock wd) required_tools
          /\ exists k, oracle wd k Clipnotify = Failed)
  end.
Proof.
  unfold main. fold required_tools. unfold bind at 1.
  destruct (check_tools required_tools wd) as [[[tool|]|] wd1] eqn:Ec;
    pose proof (check_tools_run _ _ _ _ Ec) as Hc; cbn beta iota in Hc.
  - destruct Hc as (before & after & Et & G & F & Hm).
    unfold bind, print, emit, ret. intros [= <- <-].
    exists before, tool, after. split; [exact Et|]. split; [exact F|].
    split; [exact Hm|].
    apply events_since_grows. exact (grows_trans _ _ _ _ [_] G (grows_emit _ _)).
  - destruct Hc as (Hc & F).
    unfold bind at 1, print, emit. unfold bind at 1.
    match goal with
    | |- context [loop n initial_state ?w] =>
        destruct (loop_run n initial_state w)
          as [(st' & wd2 & evs & El & Gl) | (wd2 & evs & El & _ & Hf)];
        rewrite El
    end.
    + unfold ret. intros [= <- <-]. split; [exact F|]. exists evs.
      apply events_since_grows.
      exact (grows_trans _ _ _ _ (_ :: _) Hc
               (grows_trans _ _ _ [_] _ (grows_emit wd1 _) Gl)).
    + intros [= <- _]. right. split; [exact F|].
      cbn [oracle] in Hf. destruct Hc as (_ & Ho & _). rewrite Ho in Hf. eauto.
  - intros [= <- _]. left. exact Hc.
Qed.

Lemma main_start_up_witness :
  exists before tool after,
    required_tools = before ++ tool :: after
    /\ found_from xclip_missing (clock xclip_missing) before
    /\ (exists rc out,
          oracle xclip_missing (clock xclip_missing + length before) (Which tool)
          = Exited rc out
          /\ rc <> 0%Z)
    /\ events_since xclip_missing (snd (main 3 xclip_missing))
       = List.map (fun t => Ran (Which t)) (before ++ [tool])
         ++ [Printed (MsgToolMissing tool)].
Proof.
  apply (main_start_up 3 xclip_missing (Ok None) (snd (main 3 xclip_missing))).
  vm_compute. reflexivity.
Defined.

(** With every tool found and [clipnotify] impossible to start, [main]
    ends with the exception of its first wake-up. *)
Lemma main_without_clipnotify :
  fst (main 3 no_clipnotify) = Raised
  /\ events_since no_clipnotify (snd (main 3 no_clipnotify))
     = List.map (fun t => Ran (Which t)) required_tools
       ++ [Printed MsgStarting; Ran Clipnotify].
Proof. vm_compute. split; reflexivity. Qed.

End EngineMore.
